(** * chatboot-api: the function-calling orchestrator and its lookup providers

    A shallow embedding of [src/npl/npl.service.ts] ([NplService]),
    [src/chatbot/product/product.service.ts] ([ProductService]) and
    [src/chatbot/currency/currency.service.ts] ([CurrencyService]).

    Modelling conventions.
    - A JavaScript [number] is an IEEE 754 binary64 value: Rocq's primitive
      [float].  A number that passed [Number.isInteger] and is only used as
      an array index is carried as its exact value in [Z].
    - A JavaScript object used as a dictionary (the schema's [properties],
      the currency list, the rate table) is a [gmap string _] of its own
      entries.  Where the code reads such an object with a key that comes
      from the request (the currency list, the rate table), the read also
      finds the members every object inherits from [Object.prototype]
      ([getMember]); the schema's [properties] is only written to.
    - An [async] function is its result: [Ok v] for a fulfilled promise,
      [Throw e] for a rejected one.
    - The LLM provider is a script: the outcomes of the successive
      [client.chat.completions.create] calls that one run of
      [functionCalling] or [searchItems] issues itself, in call order.  A
      call issued after the script is used up fails like a dropped
      connection.  The trace of a run holds what the function does itself:
      its completion calls and its callback invocations.  A callback is its
      outcome on the parsed arguments; what it does inside (the searches and
      fetches of the registered closures) is not part of the trace.
    - What the JavaScript engine provides ([JSON.parse], [JSON.stringify] on
      a defined value, [String.prototype.trim]) is a [JsRuntime] instance. *)

From Stdlib Require Import Floats ZArith Ascii Uint63.
From stdpp Require Import gmap strings list pretty.

Set Warnings "-register-all".

Local Open Scope string_scope.
Local Open Scope Z_scope.
Local Open Scope list_scope.

(** ** JavaScript values, exceptions and results *)

Inductive JSON : Type :=
| JNull
| JBool (b : bool)
| JNumber (x : float)
| JString (s : string)
| JArray (xs : list JSON)
| JObject (fields : list (string * JSON)).

Inductive Exception : Type :=
| BadRequestException (msg : string)
| NotFoundException (msg : string)
| Error (msg : string)
| TypeError (msg : string)
| SyntaxError (msg : string)
| APIConnectionError (msg : string).

(** [error.message] *)
Definition message (error : Exception) : string :=
  match error with
  | BadRequestException msg | NotFoundException msg | Error msg
  | TypeError msg | SyntaxError msg | APIConnectionError msg => msg
  end.

Inductive Result (A : Type) : Type :=
| Ok (value : A)
| Throw (error : Exception).

Arguments Ok {A} value.
Arguments Throw {A} error.

(** [try { body } catch (error) { handler }] *)
Definition try_catch {A : Type} (body : Result A) (handler : Exception -> Result A)
  : Result A :=
  match body with
  | Ok value => Ok value
  | Throw error => handler error
  end.

Definition isThrow {A : Type} (r : Result A) : Prop :=
  match r with
  | Ok _ => False
  | Throw _ => True
  end.

(** What the JavaScript engine provides.  [JSON_parse] throws a
    [SyntaxError] on text that is not JSON; the last three fields are the
    wording of the engine's [TypeError] messages. *)
Class JsRuntime : Type := {
  JSON_parse : string -> Result JSON;
  JSON_stringify : JSON -> string;
  String_trim : string -> string;
  readOfUndefined : string -> string;
  readOfNull : string -> string;
  notIterable : string -> string
}.

(** The double quote and the line feed, which a string literal cannot hold. *)
Definition dquote : string := String (Ascii.ascii_of_nat 34) EmptyString.
Definition newline : string := String (Ascii.ascii_of_nat 10) EmptyString.

(** [Array.prototype.join] on an array of strings. *)
Definition join (sep : string) (parts : list string) : string :=
  String.concat sep parts.

(** A template literal renders [null] as the text null. *)
Definition render (content : option string) : string :=
  match content with
  | Some s => s
  | None => "null"
  end.

(** [Number.isInteger]: a finite number with no fractional part. *)
Definition Number_isInteger (value : JSON) : bool :=
  match value with
  | JNumber x =>
      match Prim2SF x with
      | S754_zero _ => true
      | S754_finite _ m e => (0 <=? e) || (Z.pos m mod 2 ^ (- e) =? 0)
      | _ => false
      end
  | _ => false
  end.

(** The exact value of a number that satisfies [Number.isInteger]. *)
Definition integerValue (value : JSON) : Z :=
  match value with
  | JNumber x =>
      match Prim2SF x with
      | S754_finite s m e =>
          let v := if 0 <=? e then Z.pos m * 2 ^ e else Z.pos m / 2 ^ (- e) in
          if s then - v else v
      | _ => 0
      end
  | _ => 0
  end.

(** [array[k]] for an integer [k]: [undefined] (here [None]) out of range. *)
Definition arrayGet {A : Type} (array : list A) (k : Z) : option A :=
  if k <? 0 then None else array !! Z.to_nat k.

(** ** The tool registry ([NPLFunction]) and the schema sent to the provider *)

Inductive ParamType : Type := TString | TNumber.

Record NPLFunctionCallingParams : Type := {
  param_name : string;
  param_description : string;
  param_type : ParamType;
  param_required : bool
}.

(** A callback is its outcome on the parsed arguments; the effects it has
    inside are not modelled. *)
Record NPLFunction : Type := {
  fn_name : string;
  fn_description : string;
  fn_callback : JSON -> Result string;
  fn_params : list NPLFunctionCallingParams
}.

Record Property : Type := {
  prop_type : ParamType;
  prop_description : string
}.

Record Parameters : Type := {
  parameters_type : string;
  properties : gmap string Property;
  required : list string;
  additionalProperties : bool
}.

Record FunctionDefinition : Type := {
  def_name : string;
  def_description : string;
  parameters : Parameters
}.

Record Tool : Type := {
  tool_type : string;
  function : FunctionDefinition
}.

(** The body of [params.forEach]: push the name when required, then write the
    entry of the shared [properties] object. *)
Definition addParam (state : gmap string Property * list string)
  (param : NPLFunctionCallingParams) : gmap string Property * list string :=
  let '(acc, requiredParams) := state in
  let requiredParams :=
    if param_required param then requiredParams ++ [param_name param]
    else requiredParams in
  (<[param_name param :=
       {| prop_type := param_type param;
          prop_description := param_description param |}]> acc,
   requiredParams).

(** [callbacks.reduce(...)] together with the [requiredParams] array it
    fills on the side. *)
Definition collectParams (callbacks : list NPLFunction)
  : gmap string Property * list string :=
  foldl (fun state fn => foldl addParam state (fn_params fn)) (∅, []) callbacks.

Definition sharedParameters (callbacks : list NPLFunction) : Parameters :=
  {| parameters_type := "object";
     properties := fst (collectParams callbacks);
     required := snd (collectParams callbacks);
     additionalProperties := false |}.

(** [const functions = callbacks.map(...)] *)
Definition functions (callbacks : list NPLFunction) : list Tool :=
  map (fun fn =>
         {| tool_type := "function";
            function :=
              {| def_name := fn_name fn;
                 def_description := fn_description fn;
                 parameters := sharedParameters callbacks |} |})
      callbacks.

(** [const functionList = callbacks.map(...).join(' ')] *)
Definition functionList (callbacks : list NPLFunction) : string :=
  join " "
    (imap (fun index fn =>
             pretty (index + 1)%nat +:+ ". " +:+ fn_name fn +:+ "(" +:+
             join ", " (map param_name (fn_params fn)) +:+ ")")
          callbacks).

(** Every parameter of the registry, in registry order. *)
Definition allParams (callbacks : list NPLFunction)
  : list NPLFunctionCallingParams :=
  flat_map fn_params callbacks.

Definition propertyOf (param : NPLFunctionCallingParams) : Property :=
  {| prop_type := param_type param;
     prop_description := param_description param |}.

Definition requiredNames (params : list NPLFunctionCallingParams) : list string :=
  map param_name (filter (fun p => param_required p = true) params).

(** ** The provider's chat-completion interface *)

Record ToolCall : Type := {
  tool_id : string;
  tool_function_name : string;
  tool_function_arguments : string
}.

Record AssistantMessage : Type := {
  content : option string;
  tool_calls : option (list ToolCall)
}.

Record Choice : Type := {
  finish_reason : string;
  choice_message : AssistantMessage
}.

Record ChatCompletion : Type := {
  choices : list Choice
}.

Inductive ChatMessage : Type :=
| SystemMessage (text : string)
| UserMessage (text : string)
| AssistantReply (reply : AssistantMessage)
| ToolMessage (text : string) (tool_call_id : string).

(** What a run does to the outside world, in order. *)
Inductive Event : Type :=
| CompletionCall (messages : list ChatMessage) (tools : option (list Tool))
| CallbackInvoked (name : string) (params : JSON).

Definition Script : Type := list (Result ChatCompletion).
Definition Trace : Type := list Event.

Definition isCompletionCall (event : Event) : bool :=
  match event with
  | CompletionCall _ _ => true
  | CallbackInvoked _ _ => false
  end.

Definition isCallbackInvoked (event : Event) : bool :=
  match event with
  | CompletionCall _ _ => false
  | CallbackInvoked _ _ => true
  end.

(** The provider's answer to the next call. *)
Definition nextOutcome (script : Script) : Result ChatCompletion * Script :=
  match script with
  | [] => (Throw (APIConnectionError "Connection error."), [])
  | outcome :: rest => (outcome, rest)
  end.

(** [await this.client.chat.completions.create({ model, messages, tools })] *)
Definition create (script : Script) (trace : Trace)
  (messages : list ChatMessage) (tools : option (list Tool))
  : Result ChatCompletion * Script * Trace :=
  let '(outcome, rest) := nextOutcome script in
  (outcome, rest, trace ++ [CompletionCall messages tools]).

(** [llmResponse.choices[0]], a [TypeError] when a property of it is read and
    there is no such choice. *)
Definition topChoice `{JsRuntime} (llmResponse : ChatCompletion)
  (property : string) : Result Choice :=
  match choices llmResponse with
  | choice :: _ => Ok choice
  | [] => Throw (TypeError (readOfUndefined property))
  end.

(** ** [NplService] *)

(** [getCallbackByFunctionName] *)
Definition getCallbackByFunctionName (callbacks : list NPLFunction)
  (functionName : string) : Result (JSON -> Result string) :=
  match find (fun cb => String.eqb (fn_name cb) functionName) callbacks with
  | Some cb => Ok (fn_callback cb)
  | None => Throw (BadRequestException ("Function " +:+ functionName +:+ " not found"))
  end.

Definition systemPrompt (callbacks : list NPLFunction) : string :=
  "You are a helpful customer support assistant. Use the following functions: "
  +:+ functionList callbacks.

Definition nudge (callbacks : list NPLFunction) : string :=
  "Don't ask the user, always do if there is some function list "
  +:+ functionList callbacks.

Definition initialMessages (input : string) (callbacks : list NPLFunction)
  : list ChatMessage :=
  [SystemMessage (systemPrompt callbacks); UserMessage input].

Definition finalMessage (input : string) (result : option string)
  : list ChatMessage :=
  [UserMessage input;
   SystemMessage ("A user asks: " +:+ dquote +:+ input +:+ dquote +:+
                  ". The result was: " +:+ render result +:+
                  ". Formulate a final response.")].

Section Orchestrator.

Context `{JsRuntime}.
Variable callbacks : list NPLFunction.

(** [for await (const tool of tools) { ... }]: look the callback up, parse the
    arguments, await the callback, push the tool message. *)
Fixpoint runToolCalls (tools : list ToolCall) (messages : list ChatMessage)
  (trace : Trace) : Result (list ChatMessage) * Trace :=
  match tools with
  | [] => (Ok messages, trace)
  | tool :: rest =>
      match getCallbackByFunctionName callbacks (tool_function_name tool) with
      | Throw error => (Throw error, trace)
      | Ok callback =>
          match JSON_parse (tool_function_arguments tool) with
          | Throw error => (Throw error, trace)
          | Ok params =>
              let trace := trace ++ [CallbackInvoked (tool_function_name tool) params] in
              match callback params with
              | Throw error => (Throw error, trace)
              | Ok functionResult =>
                  runToolCalls rest
                    (messages ++ [ToolMessage functionResult (tool_id tool)])
                    trace
              end
          end
      end
  end.

(** The body of the [while] loop up to the nudge: the messages to send with
    the next completion call. *)
Definition toolRound (choice : Choice) (messages : list ChatMessage)
  (trace : Trace) : Result (list ChatMessage) * Trace :=
  match tool_calls (choice_message choice) with
  | None => (Throw (TypeError (notIterable "tools")), trace)
  | Some tools =>
      match runToolCalls tools (messages ++ [AssistantReply (choice_message choice)])
              trace with
      | (Throw error, trace) => (Throw error, trace)
      | (Ok messages, trace) =>
          (Ok (messages ++ [SystemMessage (nudge callbacks)]), trace)
      end
  end.

(** [while (llmResponse.choices[0].finish_reason === "tool_calls") { ... }]:
    the response the loop ends with, and what is left of the script.  The
    completion call that ends the body is [create] written out, so that the
    recursion is structural in the script ([toolLoop_next_completion]). *)
Fixpoint toolLoop (script : Script) (llmResponse : ChatCompletion)
  (messages : list ChatMessage) (trace : Trace) {struct script}
  : Result ChatCompletion * Script * Trace :=
  match topChoice llmResponse "finish_reason" with
  | Throw error => (Throw error, script, trace)
  | Ok choice =>
      if String.eqb (finish_reason choice) "tool_calls" then
        match toolRound choice messages trace with
        | (Throw error, trace) => (Throw error, script, trace)
        | (Ok messages, trace) =>
            let trace := trace ++ [CompletionCall messages (Some (functions callbacks))] in
            match script with
            | [] => (Throw (APIConnectionError "Connection error."), [], trace)
            | Throw error :: rest => (Throw error, rest, trace)
            | Ok llmResponse :: rest => toolLoop rest llmResponse messages trace
            end
        end
      else (Ok llmResponse, script, trace)
  end.

(** [return finalResponse.choices[0]?.message.content.trim()] *)
Definition finalAnswer (finalResponse : ChatCompletion) : Result (option string) :=
  match choices finalResponse with
  | [] => Ok None
  | choice :: _ =>
      match content (choice_message choice) with
      | None => Throw (TypeError (readOfNull "trim"))
      | Some text => Ok (Some (String_trim text))
      end
  end.

(** Lines 108-121: the finalization completion on a fresh context, entered
    with what the loop ended with. *)
Definition finalize (input : string)
  (loopOutcome : Result ChatCompletion * Script * Trace)
  : Result (option string) * Trace :=
  match loopOutcome with
  | (Throw error, _, trace) => (Throw error, trace)
  | (Ok llmResponse, script, trace) =>
      match topChoice llmResponse "message" with
      | Throw error => (Throw error, trace)
      | Ok choice =>
          match create script trace
                  (finalMessage input (content (choice_message choice)))
                  None with
          | (Throw error, _, trace) => (Throw error, trace)
          | (Ok finalResponse, _, trace) => (finalAnswer finalResponse, trace)
          end
      end
  end.

(** The [try] block of [functionCalling]. *)
Definition functionCallingBody (input : string) (script : Script)
  : Result (option string) * Trace :=
  let messages := initialMessages input callbacks in
  match create script [] messages (Some (functions callbacks)) with
  | (Throw error, _, trace) => (Throw error, trace)
  | (Ok llmResponse, script, trace) =>
      finalize input (toolLoop script llmResponse messages trace)
  end.

(** [functionCalling]: the answer ([None] is [undefined]) or the exception,
    and the trace of the run. *)
Definition functionCalling (input : string) (script : Script)
  : Result (option string) * Trace :=
  let '(outcome, trace) := functionCallingBody input script in
  (try_catch outcome
     (fun error =>
        Throw (BadRequestException ("Function calling error: " +:+ message error))),
   trace).

(** *** The rounds of a run *)

(** The loop's variables at the [while] test. *)
Record LoopState : Type := {
  st_script : Script;
  st_response : ChatCompletion;
  st_messages : list ChatMessage;
  st_trace : Trace
}.

Definition runLoop (st : LoopState) : Result ChatCompletion * Script * Trace :=
  toolLoop (st_script st) (st_response st) (st_messages st) (st_trace st).

(** The state in which the loop is entered when the first completion call
    is answered by [llmResponse]. *)
Definition startState (input : string) (llmResponse : ChatCompletion)
  (rest : Script) : LoopState :=
  {| st_script := rest;
     st_response := llmResponse;
     st_messages := initialMessages input callbacks;
     st_trace := [CompletionCall (initialMessages input callbacks)
                                 (Some (functions callbacks))] |}.

(** One complete round: the tools ran, the next completion was answered. *)
Definition nextRound (st : LoopState) : option LoopState :=
  match topChoice (st_response st) "finish_reason" with
  | Ok choice =>
      if String.eqb (finish_reason choice) "tool_calls" then
        match toolRound choice (st_messages st) (st_trace st), st_script st with
        | (Ok messages, trace), Ok llmResponse :: rest =>
            Some {| st_script := rest;
                    st_response := llmResponse;
                    st_messages := messages;
                    st_trace := trace ++ [CompletionCall messages
                                            (Some (functions callbacks))] |}
        | _, _ => None
        end
      else None
  | Throw _ => None
  end.

Fixpoint afterRounds (n : nat) (st : LoopState) : option LoopState :=
  match n with
  | O => Some st
  | S n => st' ← nextRound st; afterRounds n st'
  end.

(** The request [tool] was served: its callback was found, its arguments
    parsed to [fst call], and the callback answered [snd call]. *)
Definition served (tool : ToolCall) (call : JSON * string) : Prop :=
  ∃ callback,
    getCallbackByFunctionName callbacks (tool_function_name tool) = Ok callback
    ∧ JSON_parse (tool_function_arguments tool) = Ok (fst call)
    ∧ callback (fst call) = Ok (snd call).

Definition callbackEvents (tools : list ToolCall) (calls : list (JSON * string))
  : Trace :=
  zip_with (fun tool call => CallbackInvoked (tool_function_name tool) (fst call))
           tools calls.

Definition toolMessages (tools : list ToolCall) (calls : list (JSON * string))
  : list ChatMessage :=
  zip_with (fun tool call => ToolMessage (snd call) (tool_id tool)) tools calls.

(** The one invocation a request can cause. *)
Definition invocation (tool : ToolCall) : Trace :=
  match JSON_parse (tool_function_arguments tool) with
  | Ok params => [CallbackInvoked (tool_function_name tool) params]
  | Throw _ => []
  end.

End Orchestrator.

Section Search.

Context `{JsRuntime}.

(** [validateResponseFormat]; the model's [content] may be [null], which
    [JSON.parse] reads as the text null. *)
Definition validateResponseFormat (responseMessage : option string)
  : Result (list Z) :=
  let invalid :=
    BadRequestException ("Invalid response format from search: " +:+
                         render responseMessage) in
  try_catch
    (match JSON_parse (render responseMessage) with
     | Throw error => Throw error
     | Ok (JArray relevantIndices) =>
         if forallb Number_isInteger relevantIndices
         then Ok (map integerValue relevantIndices)
         else Throw (Error ("Invalid response format: " +:+ render responseMessage))
     | Ok _ =>
         Throw (Error ("Invalid response format: " +:+ render responseMessage))
     end)
    (fun _ => Throw invalid).

Definition enumeratedItems (items : list string) : string :=
  join newline (imap (fun index item => pretty (index + 1)%nat +:+ ". " +:+ item) items).

Definition searchMessages (searchTerm : string) (items : list string)
  (constraints : string) : list ChatMessage :=
  [UserMessage ("Please find items related to " +:+ dquote +:+ searchTerm +:+
                dquote +:+ ". " +:+
                (if String.eqb constraints EmptyString then EmptyString
                 else "with the following constraints " +:+ constraints));
   SystemMessage ("You are a helpful assistant. Based on the user's query, return a JSON array containing the indices without any decoration of the relevant items from the following list:"
                  +:+ newline +:+ enumeratedItems items)].

(** The [try] block of [searchItems]. *)
Definition searchItemsBody (searchTerm : string) (items : list string)
  (constraints : string) (script : Script) : Result (list Z) * Trace :=
  match create script [] (searchMessages searchTerm items constraints) None with
  | (Throw error, _, trace) => (Throw error, trace)
  | (Ok llmResponse, _, trace) =>
      match topChoice llmResponse "message" with
      | Throw error => (Throw error, trace)
      | Ok choice =>
          (validateResponseFormat (content (choice_message choice)), trace)
      end
  end.

(** [searchItems]: every failure of the [try] block is answered by []. *)
Definition searchItems (searchTerm : string) (items : list string)
  (constraints : string) (script : Script) : list Z * Trace :=
  let '(outcome, trace) := searchItemsBody searchTerm items constraints script in
  (match outcome with
   | Ok relevantIndices => relevantIndices
   | Throw _ => []
   end,
   trace).

(** ** [ProductService] *)

Record Product : Type := {
  displayTitle : string;
  embeddingText : string;
  url : string;
  imageUrl : string;
  productType : string;
  discount : float;
  price : float;
  variants : string;
  createDate : string
}.

Definition productJSON (product : Product) : JSON :=
  JObject [("displayTitle", JString (displayTitle product));
           ("embeddingText", JString (embeddingText product));
           ("url", JString (url product));
           ("imageUrl", JString (imageUrl product));
           ("productType", JString (productType product));
           ("discount", JNumber (discount product));
           ("price", JNumber (price product));
           ("variants", JString (variants product));
           ("createDate", JString (createDate product))].

(** How [JSON.stringify] writes one element of an array: [undefined] is
    written as null. *)
Definition stringifyElement (element : option Product) : string :=
  match element with
  | Some product => JSON_stringify (productJSON product)
  | None => "null"
  end.

(** [JSON.stringify] of an array whose elements are products or [undefined]. *)
Definition stringifyProducts (relevantProducts : list (option Product)) : string :=
  "[" +:+ join "," (map stringifyElement relevantProducts) +:+ "]".

(** [searchByName] over the catalog [this.products]. *)
Definition searchByName (products : list Product) (name : string)
  (script : Script) : Result string :=
  try_catch
    (let items := map displayTitle products in
     let indices := fst (searchItems name items "Must select 2 items." script) in
     if (length indices =? 0)%nat
     then Throw (NotFoundException ("No products found for: " +:+ name))
     else
       let relevantProducts := map (fun index => arrayGet products (index - 1)) indices in
       Ok (stringifyProducts relevantProducts))
    (fun error =>
       Throw (BadRequestException ("Unable to search products: " +:+ message error))).

End Search.

(** The model answered the search with a JSON array of integers [xs]. *)
Definition integerArrayResponse `{JsRuntime} (script : Script) (xs : list JSON)
  : Prop :=
  ∃ llmResponse rest choice others,
    script = Ok llmResponse :: rest
    ∧ choices llmResponse = choice :: others
    ∧ JSON_parse (render (content (choice_message choice))) = Ok (JArray xs)
    ∧ forallb Number_isInteger xs = true.

(** ** [CurrencyService] *)

(** What [fetch] resolves to: the [ok] flag and the outcome of [json()]. *)
Record Response (Body : Type) : Type := {
  ok : bool;
  json : Result Body
}.

Arguments ok {Body} _.
Arguments json {Body} _.

(** A value the code reads a property of: [undefined], [null] or an object. *)
Inductive Slot (A : Type) : Type :=
| SlotUndefined
| SlotNull
| SlotObject (object : A).

Arguments SlotUndefined {A}.
Arguments SlotNull {A}.
Arguments SlotObject {A} object.

(** [value[key]] and [value.key] up to the object itself: reading a property
    of [undefined] or [null] is a [TypeError]. *)
Definition readProperty `{JsRuntime} {A : Type} (value : Slot A) (key : string)
  : Result A :=
  match value with
  | SlotUndefined => Throw (TypeError (readOfUndefined key))
  | SlotNull => Throw (TypeError (readOfNull key))
  | SlotObject object => Ok object
  end.

(** The property names every object inherits from [Object.prototype]
    (ECMAScript 20.1.3, and B.2.2 for the names with underscores).  Their
    values are functions, or the prototype itself for [__proto__]: truthy,
    and NaN when read as a number. *)
Definition objectPrototypeMembers : list string :=
  ["constructor"; "hasOwnProperty"; "isPrototypeOf"; "propertyIsEnumerable";
   "toLocaleString"; "toString"; "valueOf"; "__proto__";
   "__defineGetter__"; "__defineSetter__"; "__lookupGetter__"; "__lookupSetter__"].

(** What [object[key]] finds on an object parsed from JSON: an own entry, a
    member inherited from [Object.prototype], or nothing ([undefined]). *)
Inductive Member (A : Type) : Type :=
| Own (value : A)
| Inherited
| Absent.

Arguments Own {A} value.
Arguments Inherited {A}.
Arguments Absent {A}.

Definition getMember {A : Type} (object : gmap string A) (key : string) : Member A :=
  match object !! key with
  | Some value => Own value
  | None =>
      if bool_decide (key ∈ objectPrototypeMembers) then Inherited else Absent
  end.

(** The body of [latest.json]: its [rates] member. *)
Record RatesData : Type := {
  rates : Slot (gmap string float)
}.

(** The two endpoints of the exchange-rate service, as one call sees them.
    A body is [null] or an object; the names of the currency list are
    strings and the rates are numbers. *)
Record ExchangeApi : Type := {
  apiUrl : string;
  apiId : string;
  fetchCurrencies : Result (Response (Slot (gmap string string)));
  fetchLatest : Result (Response (Slot RatesData))
}.

(** [!currencies[code]]: a missing entry and the empty string are falsy, an
    inherited member is not. *)
Definition noCurrency (currencies : gmap string string) (code : string) : bool :=
  match getMember currencies code with
  | Own name => String.eqb name EmptyString
  | Inherited => false
  | Absent => true
  end.

(** [!x] on a number: 0, -0 and NaN are falsy. *)
Definition falsyNumber (x : float) : bool :=
  PrimFloat.eqb x 0%float || PrimFloat.is_nan x.

(** [!ratesData.rates[code]] *)
Definition noRate (table : gmap string float) (code : string) : bool :=
  match getMember table code with
  | Own rate => falsyNumber rate
  | Inherited => false
  | Absent => true
  end.

(** [table[code]] read as a number: an inherited member and [undefined]
    are NaN. *)
Definition rateOf (table : gmap string float) (code : string) : float :=
  match getMember table code with
  | Own rate => rate
  | Inherited => nan
  | Absent => nan
  end.

(** [CurrencyService.convert] *)
Definition convert `{JsRuntime} (api : ExchangeApi) (amount : float)
  (from to : string) : Result float :=
  match fetchCurrencies api with
  | Throw error => Throw error
  | Ok response =>
      if negb (ok response) then
        Throw (BadRequestException
                 ("CurrencyService: Unable to fetch the currency list. Please check the API endpoint: "
                  +:+ apiUrl api))
      else
        match json response with
        | Throw error => Throw error
        | Ok body =>
            match readProperty body from with
            | Throw error => Throw error
            | Ok currencies =>
                if noCurrency currencies from || noCurrency currencies to then
                  Throw (BadRequestException
                           ("CurrencyService: Invalid currency code(s): " +:+ dquote +:+
                            from +:+ dquote +:+ " or " +:+ dquote +:+ to +:+ dquote +:+
                            ". Please ensure both codes are valid."))
                else
                  match fetchLatest api with
                  | Throw error => Throw error
                  | Ok ratesResponse =>
                      if negb (ok ratesResponse) then
                        Throw (BadRequestException
                                 ("CurrencyService: Unable to fetch the latest exchange rates. Please check the API endpoint: "
                                  +:+ apiUrl api +:+ "/latest.json?app_id=" +:+ apiId api))
                      else
                        match json ratesResponse with
                        | Throw error => Throw error
                        | Ok ratesBody =>
                            match readProperty ratesBody "rates" with
                            | Throw error => Throw error
                            | Ok ratesData =>
                                match readProperty (rates ratesData) from with
                                | Throw error => Throw error
                                | Ok table =>
                                    if noRate table from || noRate table to then
                                      Throw (BadRequestException
                                               ("CurrencyService: Exchange rate data not found for the currency code(s): "
                                                +:+ dquote +:+ from +:+ dquote +:+ " or " +:+
                                                dquote +:+ to +:+ dquote +:+
                                                ". Please ensure both codes are valid."))
                                    else
                                      Ok (PrimFloat.mul
                                            (PrimFloat.div amount (rateOf table from))
                                            (rateOf table to))
                                end
                            end
                        end
                  end
            end
        end
  end.

(** ** A small runtime for the examples

    ASCII white space, JSON texts that are null, an integer or an array of
    integers, and strings written without escapes. *)

Fixpoint trimStart (s : string) : string :=
  match s with
  | String c rest => if Ascii.is_space c then trimStart rest else s
  | EmptyString => EmptyString
  end.

Definition asciiTrim (s : string) : string :=
  String.rev (trimStart (String.rev (trimStart s))).

Fixpoint readDigits (s : string) (acc : Z) : option Z :=
  match s with
  | EmptyString => Some acc
  | String c rest =>
      match Ascii.is_nat c with
      | Some d => readDigits rest (10 * acc + Z.of_nat d)
      | None => None
      end
  end.

Definition readInteger (s : string) : option float :=
  match asciiTrim s with
  | EmptyString => None
  | String "-"%char (String c rest) =>
      z ← readDigits (String c rest) 0;
      Some (PrimFloat.opp (PrimFloat.of_uint63 (Uint63.of_Z z)))
  | digits => z ← readDigits digits 0; Some (PrimFloat.of_uint63 (Uint63.of_Z z))
  end.

Fixpoint splitOn (sep : ascii) (s : string) (cur : string) : list string :=
  match s with
  | EmptyString => [String.rev cur]
  | String c rest =>
      if Ascii.eqb c sep then String.rev cur :: splitOn sep rest EmptyString
      else splitOn sep rest (String c cur)
  end.

Definition readArray (s : string) : option (list JSON) :=
  match asciiTrim s with
  | String "["%char body =>
      match String.rev body with
      | String "]"%char inner =>
          match asciiTrim inner with
          | EmptyString => Some []
          | _ => mapM (fun part => JNumber <$> readInteger part)
                      (splitOn ","%char (String.rev inner) EmptyString)
          end
      | _ => None
      end
  | _ => None
  end.

Definition sampleParse (text : string) : Result JSON :=
  if String.eqb (asciiTrim text) "null" then Ok JNull
  else
    match readArray text with
    | Some xs => Ok (JArray xs)
    | None =>
        match readInteger text with
        | Some x => Ok (JNumber x)
        | None => Throw (SyntaxError ("Unexpected token in JSON: " +:+ text))
        end
    end.

Fixpoint sampleStringify (value : JSON) : string :=
  match value with
  | JNull => "null"
  | JBool b => if b then "true" else "false"
  | JNumber x => if Number_isInteger value then pretty (integerValue value) else "null"
  | JString s => dquote +:+ s +:+ dquote
  | JArray xs => "[" +:+ join "," (map sampleStringify xs) +:+ "]"
  | JObject fields =>
      "{" +:+
      join "," (map (fun field =>
                       dquote +:+ fst field +:+ dquote +:+ ":" +:+
                       sampleStringify (snd field)) fields)
      +:+ "}"
  end.

Definition sampleRuntime : JsRuntime :=
  {| JSON_parse := sampleParse;
     JSON_stringify := sampleStringify;
     String_trim := asciiTrim;
     readOfUndefined property :=
       "Cannot read properties of undefined (reading '" +:+ property +:+ "')";
     readOfNull property :=
       "Cannot read properties of null (reading '" +:+ property +:+ "')";
     notIterable name := name +:+ " is not iterable" |}.

(** ** Sample registries *)

(** The registry that [ChatbotService.chatbot] builds, over its two callbacks. *)
Definition chatbotFunctions (convertCurrencies searchProducts : JSON -> Result string)
  : list NPLFunction :=
  [ {| fn_name := "convertCurrencies";
       fn_description := "Convert a specified amount from one currency to another";
       fn_callback := convertCurrencies;
       fn_params :=
         [ {| param_name := "amount";
              param_description := "Amount to convert (e.g., 100).";
              param_type := TNumber;
              param_required := true |};
           {| param_name := "from";
              param_description := "Currency code to convert from (e.g., " +:+ dquote +:+ "COP" +:+ dquote +:+ ").";
              param_type := TString;
              param_required := true |};
           {| param_name := "to";
              param_description := "Currency code to convert to (e.g., " +:+ dquote +:+ "USD" +:+ dquote +:+ ").";
              param_type := TString;
              param_required := true |} ] |};
    {| fn_name := "searchProducts";
       fn_description := "Search for products in the inventory";
       fn_callback := searchProducts;
       fn_params :=
         [ {| param_name := "name";
              param_description := "Name of the product";
              param_type := TString;
              param_required := true |} ] |} ].

(** A registry for the examples: two tools that both declare [name]. *)
Definition echo (prefix : string) (params : JSON) : Result string :=
  Ok (prefix +:+ sampleStringify params).

Definition clashingFunctions : list NPLFunction :=
  [ {| fn_name := "searchProducts";
       fn_description := "Search for products in the inventory";
       fn_callback := echo "products:";
       fn_params :=
         [ {| param_name := "name";
              param_description := "Name of the product";
              param_type := TString;
              param_required := true |} ] |};
    {| fn_name := "searchStores";
       fn_description := "Search for stores";
       fn_callback := echo "stores:";
       fn_params :=
         [ {| param_name := "city";
              param_description := "City of the store";
              param_type := TString;
              param_required := false |};
           {| param_name := "name";
              param_description := "Number of the store";
              param_type := TNumber;
              param_required := true |} ] |} ].

(** ** Sample conversations *)

Definition sampleCallbacks : list NPLFunction :=
  chatbotFunctions (echo "rate:") (echo "products:").

Definition plainAnswer (text : string) : ChatCompletion :=
  {| choices :=
       [ {| finish_reason := "stop";
            choice_message := {| content := Some text; tool_calls := None |} |} ] |}.

Definition requestTools (tools : list ToolCall) : ChatCompletion :=
  {| choices :=
       [ {| finish_reason := "tool_calls";
            choice_message := {| content := None; tool_calls := Some tools |} |} ] |}.

Definition convertCall : ToolCall :=
  {| tool_id := "call_1";
     tool_function_name := "convertCurrencies";
     tool_function_arguments := "[100]" |}.

Definition searchCall : ToolCall :=
  {| tool_id := "call_2";
     tool_function_name := "searchProducts";
     tool_function_arguments := "[7]" |}.

Definition unknownCall : ToolCall :=
  {| tool_id := "call_3";
     tool_function_name := "cancelOrder";
     tool_function_arguments := "[1]" |}.

Definition twoToolScript : Script :=
  [Ok (requestTools [convertCall; searchCall]);
   Ok (plainAnswer "100 COP is 0.02 USD");
   Ok (plainAnswer "  You get 0.02 USD.  ")].

Definition unknownToolScript : Script :=
  [Ok (requestTools [convertCall; unknownCall; searchCall]);
   Ok (plainAnswer "never asked for")].

(** ** A sample catalog and exchange service *)

Definition iphone12 : Product :=
  {| displayTitle := "iPhone 12";
     embeddingText := "iPhone 12 phone";
     url := "https://wizybot-demo-store.myshopify.com/products/iphone-12";
     imageUrl := "https://cdn.shopify.com/iphone-12.png";
     productType := "Technology";
     discount := 1;
     price := 900;
     variants := "Color, Capacity";
     createDate := "2023-06-21" |}.

Definition iphone13 : Product :=
  {| displayTitle := "iPhone 13";
     embeddingText := "iPhone 13 phone";
     url := "https://wizybot-demo-store.myshopify.com/products/iphone-13";
     imageUrl := "https://cdn.shopify.com/iphone-13.png";
     productType := "Technology";
     discount := 2;
     price := 1099;
     variants := "Color, Capacity";
     createDate := "2023-06-21" |}.

Definition catalog : list Product := [iphone12; iphone13].

Definition currencyList : gmap string string :=
  <["USD" := "United States Dollar"]> (<["EUR" := "Euro"]> (<["COP" := "Colombian Peso"]> ∅)).

Definition exchangeApi (table : gmap string float) : ExchangeApi :=
  {| apiUrl := "https://openexchangerates.org/api";
     apiId := "app-id";
     fetchCurrencies := Ok {| ok := true; json := Ok (SlotObject currencyList) |};
     fetchLatest :=
       Ok {| ok := true;
             json := Ok (SlotObject {| rates := SlotObject table |}) |} |}.

Definition usualRates : gmap string float :=
  <["USD" := 1%float]> (<["EUR" := 0.5%float]> (<["COP" := 4000%float]> ∅)).

(** A rate table in which USD is listed with the rate 0. *)
Definition zeroRates : gmap string float :=
  <["USD" := 0%float]> (<["EUR" := 0.5%float]> ∅).

(** ** [ChatbotService] *)

Record ChatbotReq : Type := {
  input : string
}.

(** [response] is what [functionCalling] resolved to, [undefined] included. *)
Record ChatbotRes : Type := {
  response : option string
}.

(** [ChatbotService.chatbot], over the two closures it registers. *)
Definition chatbot `{JsRuntime}
  (convertCurrencies searchProducts : JSON -> Result string)
  (req : ChatbotReq) (script : Script) : Result ChatbotRes * Trace :=
  let functions := chatbotFunctions convertCurrencies searchProducts in
  let '(outcome, trace) := functionCalling functions (input req) script in
  (try_catch
     (match outcome with
      | Ok response => Ok {| response := response |}
      | Throw error => Throw error
      end)
     (fun error => Throw (BadRequestException ("Chatbot error: " +:+ message error))),
   trace).

(** ** What a run may do *)

(** The events of the loop: a callback of a registered tool, or a completion
    call that carries the schema. *)
Definition loopEvent (callbacks : list NPLFunction) (event : Event) : Prop :=
  match event with
  | CompletionCall _ tools => tools = Some (functions callbacks)
  | CallbackInvoked name _ => name ∈ map fn_name callbacks
  end.

Definition isToolMessage (message : ChatMessage) : Prop :=
  match message with
  | ToolMessage _ _ => True
  | _ => False
  end.

(** ** More sample data *)

Definition garbledCall : ToolCall :=
  {| tool_id := "call_4";
     tool_function_name := "searchProducts";
     tool_function_arguments := "name: phone" |}.

Definition rateLimited (params : JSON) : Result string :=
  Throw (BadRequestException
           "CurrencyService: Unable to fetch the currency list. Please check the API endpoint: https://openexchangerates.org/api").

Definition failingCallbacks : list NPLFunction :=
  chatbotFunctions rateLimited (echo "products:").


(** * Checks of the runtime model *)

Example sampleParse_array :
  sampleParse " [1, 20,-3 ] " = Ok (JArray [JNumber 1; JNumber 20; JNumber (-3)]).
Proof. reflexivity. Qed.

Example isInteger_examples :
  map Number_isInteger [JNumber 3; JNumber 2.5; JNumber 0; JNumber infinity;
                        JNumber nan; JNumber (-7); JString "3"; JNumber 4503599627370496]
  = [true; false; true; false; false; true; false; true].
Proof. vm_compute. reflexivity. Qed.

Example integerValue_examples :
  map integerValue [JNumber 3; JNumber 0; JNumber (-7); JNumber 1024]
  = [3; 0; -7; 1024].
Proof. vm_compute. reflexivity. Qed.

(** * The schema builder *)

Section SchemaBuilder.

Implicit Types (acc : gmap string Property) (params : list NPLFunctionCallingParams).

Lemma collectParams_flat (callbacks : list NPLFunction) :
  collectParams callbacks = foldl addParam (∅, []) (allParams callbacks).
Proof.
  unfold collectParams, allParams.
  generalize (∅ : gmap string Property, [] : list string).
  induction callbacks as [|fn callbacks IH]; intros state; simpl; [done|].
  by rewrite IH, foldl_app.
Qed.

Lemma addParams_required acc (requiredParams : list string) params :
  snd (foldl addParam (acc, requiredParams) params)
  = requiredParams ++ requiredNames params.
Proof.
  revert acc requiredParams.
  induction params as [|param params IH]; intros acc requiredParams; simpl.
  - by rewrite app_nil_r.
  - rewrite IH. unfold requiredNames. rewrite filter_cons.
    case_decide as Hreq.
    + rewrite Hreq. simpl. by rewrite <- app_assoc.
    + apply not_true_is_false in Hreq. by rewrite Hreq.
Qed.

Lemma addParams_untouched acc (requiredParams : list string) params (n : string) :
  (∀ param, param ∈ params → param_name param ≠ n) →
  fst (foldl addParam (acc, requiredParams) params) !! n = acc !! n.
Proof.
  revert acc requiredParams.
  induction params as [|param params IH]; intros acc requiredParams Hfresh; simpl.
  - done.
  - rewrite IH by (intros q Hq; apply Hfresh; by right).
    apply lookup_insert_ne, Hfresh. by left.
Qed.

(** Last write wins. *)
Lemma addParams_last acc (requiredParams : list string) params before param after :
  params = before ++ param :: after →
  (∀ q, q ∈ after → param_name q ≠ param_name param) →
  fst (foldl addParam (acc, requiredParams) params) !! param_name param
  = Some (propertyOf param).
Proof.
  intros -> Hafter. rewrite foldl_app. simpl.
  destruct (foldl addParam (acc, requiredParams) before) as [acc' required'].
  simpl. rewrite addParams_untouched by done.
  apply lookup_insert_eq.
Qed.

Lemma addParams_origin acc (requiredParams : list string) params n property :
  fst (foldl addParam (acc, requiredParams) params) !! n = Some property →
  acc !! n = Some property
  ∨ ∃ param, param ∈ params ∧ param_name param = n ∧ propertyOf param = property.
Proof.
  revert acc requiredParams.
  induction params as [|param params IH]; intros acc requiredParams Hlook; simpl in *.
  - by left.
  - apply IH in Hlook as [Hlook | (q & Hq & Hn & Hp)].
    + destruct (decide (param_name param = n)) as [Heq|Hne].
      * rewrite Heq, lookup_insert_eq in Hlook. right. exists param.
        split; [by left|]. split; [done|]. unfold propertyOf. congruence.
      * rewrite lookup_insert_ne in Hlook by done. by left.
    + right. exists q. split; [by right | done].
Qed.

Lemma requiredNames_app params1 params2 :
  requiredNames (params1 ++ params2) = requiredNames params1 ++ requiredNames params2.
Proof. unfold requiredNames. by rewrite filter_app, map_app. Qed.

Lemma requiredNames_allParams (callbacks : list NPLFunction) :
  requiredNames (allParams callbacks)
  = flat_map (fun fn => requiredNames (fn_params fn)) callbacks.
Proof.
  induction callbacks as [|fn callbacks IH]; simpl; [done|].
  unfold allParams in *. simpl. by rewrite requiredNames_app, IH.
Qed.

Lemma required_sharedParameters (callbacks : list NPLFunction) :
  required (sharedParameters callbacks)
  = flat_map (fun fn => requiredNames (fn_params fn)) callbacks.
Proof.
  simpl. rewrite collectParams_flat, addParams_required. simpl.
  apply requiredNames_allParams.
Qed.

Lemma elem_of_allParams (callbacks : list NPLFunction) param :
  param ∈ allParams callbacks ↔ ∃ fn, fn ∈ callbacks ∧ param ∈ fn_params fn.
Proof.
  unfold allParams. rewrite list_elem_of_In, in_flat_map.
  split; intros (fn & Hfn & Hp); exists fn; by rewrite ?list_elem_of_In in *.
Qed.

Lemma elem_of_requiredNames params n :
  n ∈ requiredNames params
  ↔ ∃ param, param ∈ params ∧ param_required param = true ∧ param_name param = n.
Proof.
  unfold requiredNames. rewrite list_elem_of_fmap. split.
  - intros (param & -> & Hin). apply list_elem_of_filter in Hin as [Hreq Hin]. eauto.
  - intros (param & Hin & Hreq & <-). exists param. split; [done|].
    by apply list_elem_of_filter.
Qed.

Lemma requiredNames_NoDup params :
  NoDup (map param_name params) → NoDup (requiredNames params).
Proof.
  unfold requiredNames. induction params as [|param params IH]; simpl.
  - intros _. constructor.
  - intros Hnd. apply NoDup_cons in Hnd as [Hnotin Hnd].
    rewrite filter_cons. case_decide; simpl; [|by apply IH].
    apply NoDup_cons. split; [|by apply IH].
    intros Hin. apply Hnotin.
    apply list_elem_of_fmap in Hin as (q & Hq & Hin).
    apply list_elem_of_filter in Hin as [_ Hin].
    apply list_elem_of_fmap. eauto.
Qed.

End SchemaBuilder.

(** C1. When no two parameters of the registry share a name (within a tool,
    as the data model requires, and across tools), every entry of the
    schema built by [functionCalling] carries its tool's name and
    description and the same parameter object; that object has type object,
    its [properties] hold exactly the parameters of all tools, each with its
    declared type and description, its [required] list is the required
    names of each tool in registry order, without repetition, and
    [additionalProperties] is false. *)
Theorem schema_distinct_names (callbacks : list NPLFunction) :
  NoDup (map param_name (allParams callbacks)) →
  let shared := sharedParameters callbacks in
  map (fun tool => (def_name (function tool), def_description (function tool)))
      (functions callbacks)
  = map (fun fn => (fn_name fn, fn_description fn)) callbacks
  ∧ Forall (fun tool => tool_type tool = "function"
                        ∧ parameters (function tool) = shared)
           (functions callbacks)
  ∧ parameters_type shared = "object"
  ∧ (∀ n property,
        properties shared !! n = Some property
        ↔ ∃ param, param ∈ allParams callbacks
                   ∧ param_name param = n
                   ∧ property = {| prop_type := param_type param;
                                   prop_description := param_description param |})
  ∧ required shared = flat_map (fun fn => requiredNames (fn_params fn)) callbacks
  ∧ NoDup (required shared)
  ∧ additionalProperties shared = false.
Proof.
  intros Hdistinct shared.
  split; [|split; [|split; [|split; [|split; [|split]]]]].
  - unfold functions. rewrite map_map. done.
  - unfold functions. apply Forall_forall. intros tool Hin.
    apply list_elem_of_fmap in Hin as (fn & -> & _). done.
  - done.
  - intros n property. subst shared. simpl. rewrite collectParams_flat. split.
    + intros Hlook. apply addParams_origin in Hlook as [Hempty | (param & Hin & Hn & Hp)].
      * by rewrite lookup_empty in Hempty.
      * exists param. unfold propertyOf in Hp. done.
    + intros (param & Hin & <- & ->).
      apply list_elem_of_split in Hin as (before & after & Hsplit).
      apply (addParams_last _ _ _ before param after); [done|].
      intros q Hq Heq. rewrite Hsplit, map_app in Hdistinct. simpl in Hdistinct.
      apply NoDup_app in Hdistinct as (_ & _ & Hnd).
      apply NoDup_cons in Hnd as [Hnotin _]. apply Hnotin.
      rewrite <- Heq. apply list_elem_of_fmap. eauto.
  - apply required_sharedParameters.
  - subst shared. rewrite required_sharedParameters, <- requiredNames_allParams.
    by apply requiredNames_NoDup.
  - done.
Qed.

Lemma schema_distinct_names_witness :
  let callbacks := chatbotFunctions (echo "rate:") (echo "products:") in
  required (sharedParameters callbacks) = ["amount"; "from"; "to"; "name"]
  ∧ properties (sharedParameters callbacks) !! "amount"
    = Some {| prop_type := TNumber;
              prop_description := "Amount to convert (e.g., 100)." |}.
Proof.
  intros callbacks.
  assert (Hdistinct : NoDup (map param_name (allParams callbacks))).
  { apply (bool_decide_unpack _). vm_compute. exact I. }
  destruct (schema_distinct_names callbacks Hdistinct)
    as (_ & _ & _ & Hprops & Hreq & _ & _).
  split.
  - rewrite Hreq. reflexivity.
  - apply Hprops. eexists. split; [apply list_elem_of_here|].
    split; reflexivity.
Defined.

(** C2. When two tools declare a parameter with the same name, the entry of
    [properties] for that name is the type and description declared by the
    later tool (the last tool of the registry that declares it), and the
    [required] list holds exactly the required names of all tools. *)
Theorem schema_name_collision (callbacks before between after : list NPLFunction)
  (earlier later : NPLFunction) (p1 p2 : NPLFunctionCallingParams) :
  callbacks = before ++ earlier :: between ++ later :: after →
  p1 ∈ fn_params earlier →
  p2 ∈ fn_params later →
  param_name p1 = param_name p2 →
  NoDup (map param_name (fn_params later)) →
  (∀ fn param, fn ∈ after → param ∈ fn_params fn → param_name param ≠ param_name p2) →
  properties (sharedParameters callbacks) !! param_name p2
  = Some {| prop_type := param_type p2; prop_description := param_description p2 |}
  ∧ required (sharedParameters callbacks)
    = flat_map (fun fn => requiredNames (fn_params fn)) callbacks
  ∧ (∀ n, n ∈ required (sharedParameters callbacks)
          ↔ ∃ fn param, fn ∈ callbacks ∧ param ∈ fn_params fn
                        ∧ param_required param = true ∧ param_name param = n).
Proof.
  intros Hsplit Hp1 Hp2 Hsame Hunique Hlast.
  split; [|split].
  - simpl. rewrite collectParams_flat.
    apply list_elem_of_split in Hp2 as (ps1 & ps2 & Hparams).
    apply (addParams_last _ _ _
             (allParams (before ++ earlier :: between) ++ ps1) p2
             (ps2 ++ allParams after)).
    + rewrite Hsplit. unfold allParams.
      rewrite (app_comm_cons between), app_assoc.
      rewrite flat_map_app. simpl. rewrite Hparams.
      by rewrite <- !app_assoc.
    + intros q Hq. apply elem_of_app in Hq as [Hq | Hq].
      * rewrite Hparams, map_app in Hunique. simpl in Hunique.
        apply NoDup_app in Hunique as (_ & _ & Hnd).
        apply NoDup_cons in Hnd as [Hnotin _].
        intros Heq. apply Hnotin. rewrite <- Heq. apply list_elem_of_fmap. eauto.
      * apply elem_of_allParams in Hq as (fn & Hfn & Hq). by apply (Hlast fn).
  - apply required_sharedParameters.
  - intros n. rewrite required_sharedParameters, <- requiredNames_allParams.
    rewrite elem_of_requiredNames. split.
    + intros (param & Hin & Hreq & Hn).
      apply elem_of_allParams in Hin as (fn & Hfn & Hin). eauto 10.
    + intros (fn & param & Hfn & Hin & Hreq & Hn). exists param.
      split; [|done]. apply elem_of_allParams. eauto.
Qed.

Lemma schema_name_collision_witness :
  properties (sharedParameters clashingFunctions) !! "name"
  = Some {| prop_type := TNumber; prop_description := "Number of the store" |}
  ∧ required (sharedParameters clashingFunctions) = ["name"; "name"].
Proof.
  destruct (schema_name_collision clashingFunctions [] [] []
              {| fn_name := "searchProducts";
                 fn_description := "Search for products in the inventory";
                 fn_callback := echo "products:";
                 fn_params :=
                   [ {| param_name := "name";
                        param_description := "Name of the product";
                        param_type := TString;
                        param_required := true |} ] |}
              {| fn_name := "searchStores";
                 fn_description := "Search for stores";
                 fn_callback := echo "stores:";
                 fn_params :=
                   [ {| param_name := "city";
                        param_description := "City of the store";
                        param_type := TString;
                        param_required := false |};
                     {| param_name := "name";
                        param_description := "Number of the store";
                        param_type := TNumber;
                        param_required := true |} ] |}
              {| param_name := "name";
                 param_description := "Name of the product";
                 param_type := TString;
                 param_required := true |}
              {| param_name := "name";
                 param_description := "Number of the store";
                 param_type := TNumber;
                 param_required := true |})
    as (Hprop & Hreq & _).
  - reflexivity.
  - apply list_elem_of_here.
  - apply list_elem_of_further, list_elem_of_here.
  - reflexivity.
  - apply (bool_decide_unpack _). vm_compute. exact I.
  - intros fn param Hfn. inversion Hfn.
  - split; [exact Hprop | rewrite Hreq; reflexivity].
Defined.

(** * The orchestrator *)

Section OrchestratorFacts.

Context `{JsRuntime}.
Variable callbacks : list NPLFunction.

Lemma toolLoop_unfold script llmResponse messages trace :
  toolLoop callbacks script llmResponse messages trace
  = match topChoice llmResponse "finish_reason" with
    | Throw error => (Throw error, script, trace)
    | Ok choice =>
        if String.eqb (finish_reason choice) "tool_calls" then
          match toolRound callbacks choice messages trace with
          | (Throw error, trace) => (Throw error, script, trace)
          | (Ok messages, trace) =>
              let trace := trace ++ [CompletionCall messages (Some (functions callbacks))] in
              match script with
              | [] => (Throw (APIConnectionError "Connection error."), [], trace)
              | Throw error :: rest => (Throw error, rest, trace)
              | Ok llmResponse :: rest =>
                  toolLoop callbacks rest llmResponse messages trace
              end
          end
        else (Ok llmResponse, script, trace)
    end.
Proof. destruct script; reflexivity. Qed.

Lemma toolLoop_next_completion script llmResponse choice others messages trace
  messages' trace' :
  choices llmResponse = choice :: others →
  finish_reason choice = "tool_calls" →
  toolRound callbacks choice messages trace = (Ok messages', trace') →
  toolLoop callbacks script llmResponse messages trace
  = match create script trace' messages' (Some (functions callbacks)) with
    | (Throw error, rest, trace) => (Throw error, rest, trace)
    | (Ok llmResponse, rest, trace) =>
        toolLoop callbacks rest llmResponse messages' trace
    end.
Proof.
  intros Hchoice Hreason Hround. rewrite toolLoop_unfold.
  unfold topChoice. rewrite Hchoice, Hreason, Hround. simpl.
  by destruct script as [|[llmResponse'|error] rest].
Qed.

Lemma getCallback_unknown functionName :
  (∀ fn, fn ∈ callbacks → fn_name fn ≠ functionName) →
  getCallbackByFunctionName callbacks functionName
  = Throw (BadRequestException ("Function " +:+ functionName +:+ " not found")).
Proof.
  intros Hunknown. unfold getCallbackByFunctionName.
  destruct (find _ callbacks) as [cb|] eqn:Hfind; [|done].
  apply find_some in Hfind as [Hin Heq].
  apply String.eqb_eq in Heq. apply list_elem_of_In in Hin.
  by destruct (Hunknown cb Hin).
Qed.

(** The requests that are served, in order. *)
Lemma runToolCalls_served tools calls messages trace :
  Forall2 (served callbacks) tools calls →
  runToolCalls callbacks tools messages trace
  = (Ok (messages ++ toolMessages tools calls),
     trace ++ callbackEvents tools calls).
Proof.
  intros Hserved. revert messages trace.
  induction Hserved as [|tool call tools calls (callback & Hcb & Hparse & Hres) _ IH];
    intros messages trace; simpl.
  - by rewrite !app_nil_r.
  - rewrite Hcb, Hparse, Hres, IH.
    unfold toolMessages, callbackEvents. simpl.
    by rewrite <- !app_assoc.
Qed.

(** A request for a tool the registry does not have ends the loop. *)
Lemma runToolCalls_unknown done calls tool remaining messages trace :
  Forall2 (served callbacks) done calls →
  (∀ fn, fn ∈ callbacks → fn_name fn ≠ tool_function_name tool) →
  runToolCalls callbacks (done ++ tool :: remaining) messages trace
  = (Throw (BadRequestException
              ("Function " +:+ tool_function_name tool +:+ " not found")),
     trace ++ callbackEvents done calls).
Proof.
  intros Hserved Hunknown. revert messages trace.
  induction Hserved as [|tool' call tools calls (callback & Hcb & Hparse & Hres) _ IH];
    intros messages trace; simpl.
  - rewrite getCallback_unknown by done. by rewrite app_nil_r.
  - rewrite Hcb, Hparse, Hres, IH. unfold callbackEvents. simpl.
    by rewrite <- !app_assoc.
Qed.

(** Whatever happens, a round invokes a prefix of what was requested. *)
Lemma runToolCalls_trace tools messages trace :
  ∃ events,
    snd (runToolCalls callbacks tools messages trace) = trace ++ events
    ∧ events `prefix_of` flat_map invocation tools
    ∧ (∀ messages', fst (runToolCalls callbacks tools messages trace) = Ok messages' →
                    events = flat_map invocation tools).
Proof.
  revert messages trace.
  induction tools as [|tool tools IH]; intros messages trace; simpl.
  - exists []. rewrite app_nil_r. done.
  - destruct (getCallbackByFunctionName callbacks (tool_function_name tool))
      as [callback|error]; simpl.
    + unfold invocation at 1 3.
      destruct (JSON_parse (tool_function_arguments tool)) as [params|error]; simpl.
      * destruct (callback params) as [functionResult|error]; simpl.
        -- destruct (IH (messages ++ [ToolMessage functionResult (tool_id tool)])
                        (trace ++ [CallbackInvoked (tool_function_name tool) params]))
             as (events & Htrace & Hprefix & Hall).
           exists (CallbackInvoked (tool_function_name tool) params :: events).
           rewrite Htrace, <- app_assoc. split; [done|]. split.
           ++ by apply prefix_cons.
           ++ intros messages' Hok. f_equal. by eapply Hall.
        -- exists [CallbackInvoked (tool_function_name tool) params].
           split; [done|]. split; [|done].
           apply prefix_cons, prefix_nil.
      * exists []. rewrite app_nil_r. split; [done|]. split; [apply prefix_nil|done].
    + exists []. rewrite app_nil_r. split; [done|]. split; [apply prefix_nil|done].
Qed.

Lemma toolLoop_trace_grows script llmResponse messages trace :
  ∃ later, snd (toolLoop callbacks script llmResponse messages trace) = trace ++ later.
Proof.
  revert llmResponse messages trace.
  induction script as [|outcome script IH]; intros llmResponse messages trace;
    rewrite toolLoop_unfold.
  all: destruct (topChoice llmResponse "finish_reason") as [choice|error];
    [|exists []; by rewrite app_nil_r].
  all: destruct (String.eqb (finish_reason choice) "tool_calls");
    [|exists []; by rewrite app_nil_r].
  all: unfold toolRound;
    destruct (tool_calls (choice_message choice)) as [tools|];
    [|exists []; by rewrite app_nil_r].
  all: destruct (runToolCalls_trace tools
                   (messages ++ [AssistantReply (choice_message choice)]) trace)
         as (events & Htrace & _).
  all: destruct (runToolCalls callbacks tools _ trace) as [[messages'|error] trace'];
    simpl in Htrace; subst trace'; [|by eexists].
  - eexists. simpl. by rewrite <- app_assoc.
  - destruct outcome as [llmResponse'|error].
    + destruct (IH llmResponse' (messages' ++ [SystemMessage (nudge callbacks)])
                  ((trace ++ events) ++
                   [CompletionCall (messages' ++ [SystemMessage (nudge callbacks)])
                                   (Some (functions callbacks))]))
        as (later & Hlater).
      simpl. rewrite Hlater. eexists. by rewrite <- !app_assoc.
    + eexists. simpl. by rewrite <- app_assoc.
Qed.

(** A complete round leaves the rest of the run to the next state. *)
Lemma runLoop_nextRound st st' :
  nextRound callbacks st = Some st' → runLoop callbacks st = runLoop callbacks st'.
Proof.
  unfold nextRound, runLoop. intros Hnext. rewrite toolLoop_unfold.
  destruct (topChoice (st_response st) "finish_reason") as [choice|error]; [|done].
  destruct (String.eqb (finish_reason choice) "tool_calls"); [|done].
  destruct (toolRound callbacks choice (st_messages st) (st_trace st))
    as [[messages|error] trace]; [|done].
  destruct (st_script st) as [|[llmResponse|error] rest]; [done| |done].
  by injection Hnext as <-.
Qed.

Lemma runLoop_afterRounds n st st' :
  afterRounds callbacks n st = Some st' → runLoop callbacks st = runLoop callbacks st'.
Proof.
  revert st. induction n as [|n IH]; intros st; simpl.
  - by intros [= ->].
  - destruct (nextRound callbacks st) as [st1|] eqn:Hnext; simpl; [|done].
    intros Hrest. rewrite (runLoop_nextRound _ _ Hnext). by apply IH.
Qed.

Lemma functionCallingBody_start input llmResponse rest :
  functionCallingBody callbacks input (Ok llmResponse :: rest)
  = finalize input (runLoop callbacks (startState callbacks input llmResponse rest)).
Proof. reflexivity. Qed.

Lemma functionCalling_reached input llmResponse rest n st :
  afterRounds callbacks n (startState callbacks input llmResponse rest) = Some st →
  functionCallingBody callbacks input (Ok llmResponse :: rest)
  = finalize input (runLoop callbacks st).
Proof.
  intros Hreach. rewrite functionCallingBody_start.
  by rewrite (runLoop_afterRounds _ _ _ Hreach).
Qed.

Lemma finalize_trace_grows input outcome :
  ∃ later, snd (finalize input outcome) = snd outcome ++ later
           ∧ (isThrow (fst (fst outcome)) → later = []).
Proof.
  destruct outcome as [[[llmResponse|error] script] trace]; simpl.
  - destruct (topChoice llmResponse "message") as [choice|error]; simpl.
    + unfold create. destruct (nextOutcome script) as [[finalResponse|error] rest];
        simpl; eexists; split; done.
    + exists []. by rewrite app_nil_r.
  - exists []. by rewrite app_nil_r.
Qed.

End OrchestratorFacts.

Section OrchestratorClaims.

Context `{JsRuntime}.
Variable callbacks : list NPLFunction.

(** What a round that requests tools does to the run. *)
Lemma reached_tool_round input llmResponse rest n st choice others tools :
  afterRounds callbacks n (startState callbacks input llmResponse rest) = Some st →
  choices (st_response st) = choice :: others →
  finish_reason choice = "tool_calls" →
  tool_calls (choice_message choice) = Some tools →
  match runToolCalls callbacks tools
          (st_messages st ++ [AssistantReply (choice_message choice)])
          (st_trace st) with
  | (Throw error, trace) =>
      functionCallingBody callbacks input (Ok llmResponse :: rest) = (Throw error, trace)
  | (Ok messages, trace) =>
      ∃ more,
        snd (functionCallingBody callbacks input (Ok llmResponse :: rest))
        = trace ++ CompletionCall (messages ++ [SystemMessage (nudge callbacks)])
                                  (Some (functions callbacks)) :: more
  end.
Proof.
  intros Hreach Hchoice Hreason Htools.
  rewrite (functionCalling_reached _ _ _ _ _ _ Hreach).
  unfold runLoop. rewrite toolLoop_unfold.
  unfold topChoice. rewrite Hchoice, Hreason. simpl.
  unfold toolRound. rewrite Htools.
  destruct (runToolCalls callbacks tools _ (st_trace st)) as [[messages|error] trace];
    [|done].
  set (messages' := messages ++ [SystemMessage (nudge callbacks)]).
  destruct (st_script st) as [|[llmResponse'|error] script]; simpl.
  - by eexists.
  - destruct (toolLoop_trace_grows callbacks script llmResponse' messages'
                (trace ++ [CompletionCall messages' (Some (functions callbacks))]))
      as (later & Hlater).
    destruct (finalize_trace_grows input
                (toolLoop callbacks script llmResponse' messages'
                   (trace ++ [CompletionCall messages' (Some (functions callbacks))])))
      as (final & Hfinal & _).
    rewrite Hfinal, Hlater. eexists. by rewrite <- !app_assoc.
  - by eexists.
Qed.

(** C3. In a round in which the assistant message requests tool calls, the
    only events between the completion that asked for them and the next
    completion call are callback invocations, at most one per request and
    in request order; when every request is served, each callback is
    invoked exactly once in that order and the next completion call is
    issued with the messages so far, the assistant message, one tool
    message per request (the callback's result and the request's id) in
    request order, and then exactly one system nudge. *)
Theorem tool_round_order input llmResponse rest n st choice others tools :
  afterRounds callbacks n (startState callbacks input llmResponse rest) = Some st →
  choices (st_response st) = choice :: others →
  finish_reason choice = "tool_calls" →
  tool_calls (choice_message choice) = Some tools →
  let trace := snd (functionCalling callbacks input (Ok llmResponse :: rest)) in
  (∃ events later,
      trace = st_trace st ++ events ++ later
      ∧ events `prefix_of` flat_map invocation tools
      ∧ (later = []
         ∨ ∃ messages more,
             later = CompletionCall messages (Some (functions callbacks)) :: more))
  ∧ (∀ calls,
        Forall2 (served callbacks) tools calls →
        ∃ later,
          trace
          = st_trace st ++ callbackEvents tools calls ++
            CompletionCall
              (st_messages st ++ [AssistantReply (choice_message choice)] ++
               toolMessages tools calls ++ [SystemMessage (nudge callbacks)])
              (Some (functions callbacks)) :: later).
Proof.
  intros Hreach Hchoice Hreason Htools trace.
  pose proof (reached_tool_round input llmResponse rest n st choice others tools
                Hreach Hchoice Hreason Htools) as Hround.
  assert (Htrace : trace = snd (functionCallingBody callbacks input (Ok llmResponse :: rest))).
  { subst trace. unfold functionCalling. by destruct (functionCallingBody _ _ _). }
  split.
  - destruct (runToolCalls_trace callbacks tools
                (st_messages st ++ [AssistantReply (choice_message choice)])
                (st_trace st)) as (events & Hevents & Hprefix & _).
    destruct (runToolCalls callbacks tools _ (st_trace st)) as [[messages|error] trace'];
      simpl in Hevents; subst trace'.
    + destruct Hround as (more & Hmore). exists events. eexists.
      split; [|split; [done|]].
      * rewrite Htrace, Hmore. by rewrite <- app_assoc.
      * right. by do 2 eexists.
    + exists events, []. rewrite Htrace, Hround, app_nil_r. simpl.
      split; [done|]. split; [done|]. by left.
  - intros calls Hserved.
    rewrite (runToolCalls_served callbacks _ _ _ _ Hserved) in Hround.
    destruct Hround as (more & Hmore). exists more.
    rewrite Htrace, Hmore. by rewrite <- !app_assoc.
Qed.

(** C4. When the top choice of the first completion does not stop for
    "tool_calls", the run issues exactly two completion calls, the first
    round's and the finalization's, and invokes no callback. *)
Theorem no_tool_calls_two_completions input llmResponse rest choice others :
  choices llmResponse = choice :: others →
  finish_reason choice ≠ "tool_calls" →
  let trace := snd (functionCalling callbacks input (Ok llmResponse :: rest)) in
  trace = [CompletionCall (initialMessages input callbacks) (Some (functions callbacks));
           CompletionCall (finalMessage input (content (choice_message choice))) None]
  ∧ length (filter (fun event => isCompletionCall event = true) trace) = 2%nat
  ∧ filter (fun event => isCallbackInvoked event = true) trace = [].
Proof.
  intros Hchoice Hreason trace.
  assert (Htrace : trace
    = [CompletionCall (initialMessages input callbacks) (Some (functions callbacks));
       CompletionCall (finalMessage input (content (choice_message choice))) None]).
  { subst trace. unfold functionCalling. rewrite functionCallingBody_start.
    unfold runLoop, startState. simpl. rewrite toolLoop_unfold.
    unfold topChoice. rewrite Hchoice.
    apply String.eqb_neq in Hreason. rewrite Hreason. simpl.
    unfold topChoice. rewrite Hchoice. unfold create.
    by destruct (nextOutcome rest) as [[finalResponse|error] rest']. }
  rewrite Htrace. done.
Qed.

(** A request for a tool that is not in the registry is never passed: the
    loop over the requests fails at it or before it, and has invoked
    callbacks only for requests that come before it. *)
Lemma runToolCalls_unknown_anywhere before tool remaining messages trace :
  (∀ fn, fn ∈ callbacks → fn_name fn ≠ tool_function_name tool) →
  ∃ error events,
    runToolCalls callbacks (before ++ tool :: remaining) messages trace
    = (Throw error, trace ++ events)
    ∧ events `prefix_of` flat_map invocation before.
Proof.
  intros Hunknown. revert messages trace.
  induction before as [|request before IH]; intros messages trace; simpl.
  - rewrite getCallback_unknown by done. eexists. exists [].
    by rewrite app_nil_r.
  - destruct (getCallbackByFunctionName callbacks (tool_function_name request))
      as [callback|error].
    + unfold invocation at 1.
      destruct (JSON_parse (tool_function_arguments request)) as [params|error].
      * destruct (callback params) as [functionResult|error].
        -- destruct (IH (messages ++ [ToolMessage functionResult (tool_id request)])
                        (trace ++ [CallbackInvoked (tool_function_name request) params]))
             as (error & events & Hrun & Hprefix).
           exists error, (CallbackInvoked (tool_function_name request) params :: events).
           rewrite Hrun, <- app_assoc. split; [done|]. by apply prefix_cons.
        -- exists error, [CallbackInvoked (tool_function_name request) params].
           split; [done|]. apply prefix_cons, prefix_nil.
      * exists error, []. rewrite app_nil_r. split; [done|]. apply prefix_nil.
    + exists error, []. rewrite app_nil_r. split; [done|]. apply prefix_nil.
Qed.

(** C5. An error raised in the [try] block of [functionCalling] always
    surfaces, and only so, as one [BadRequestException] whose message is
    "Function calling error: " followed by the message of the underlying
    error; an answer is returned only when the block raised none.  In
    particular, whatever makes the loop over the requested tools fail in
    some round, the run fails with that error wrapped and ends there, and
    so does a failure of the provider on the first call.  And when, in some
    round, the model requests a tool whose name is not in the
    registry, the run fails whatever the other requests are: the events
    after the completion that asked are callbacks of requests listed
    before the unknown one, so the unknown request is not skipped, no
    later request is run and no further completion call is issued; when the
    requests before it were all served, the underlying error is
    "Function <name> not found". *)
Theorem unknown_tool_fails :
  (∀ input script,
      match fst (functionCallingBody callbacks input script) with
      | Ok answer => fst (functionCalling callbacks input script) = Ok answer
      | Throw underlying =>
          fst (functionCalling callbacks input script)
          = Throw (BadRequestException
                     ("Function calling error: " +:+ message underlying))
      end)
  ∧ (∀ input script error,
        fst (functionCalling callbacks input script) = Throw error →
        ∃ underlying,
          fst (functionCallingBody callbacks input script) = Throw underlying
          ∧ error = BadRequestException
                      ("Function calling error: " +:+ message underlying))
  ∧ (∀ input llmResponse rest n st choice others tools underlying trace,
        afterRounds callbacks n (startState callbacks input llmResponse rest) = Some st →
        choices (st_response st) = choice :: others →
        finish_reason choice = "tool_calls" →
        tool_calls (choice_message choice) = Some tools →
        runToolCalls callbacks tools
          (st_messages st ++ [AssistantReply (choice_message choice)]) (st_trace st)
        = (Throw underlying, trace) →
        functionCalling callbacks input (Ok llmResponse :: rest)
        = (Throw (BadRequestException
                    ("Function calling error: " +:+ message underlying)),
           trace))
  ∧ (∀ input llmResponse rest n st choice others before tool remaining,
        afterRounds callbacks n (startState callbacks input llmResponse rest) = Some st →
        choices (st_response st) = choice :: others →
        finish_reason choice = "tool_calls" →
        tool_calls (choice_message choice) = Some (before ++ tool :: remaining) →
        (∀ fn, fn ∈ callbacks → fn_name fn ≠ tool_function_name tool) →
        ∃ underlying events,
          functionCalling callbacks input (Ok llmResponse :: rest)
          = (Throw (BadRequestException
                      ("Function calling error: " +:+ message underlying)),
             st_trace st ++ events)
          ∧ events `prefix_of` flat_map invocation before)
  ∧ (∀ input llmResponse rest n st choice others served_tools tool remaining calls,
        afterRounds callbacks n (startState callbacks input llmResponse rest) = Some st →
        choices (st_response st) = choice :: others →
        finish_reason choice = "tool_calls" →
        tool_calls (choice_message choice) = Some (served_tools ++ tool :: remaining) →
        Forall2 (served callbacks) served_tools calls →
        (∀ fn, fn ∈ callbacks → fn_name fn ≠ tool_function_name tool) →
        functionCalling callbacks input (Ok llmResponse :: rest)
        = (Throw (BadRequestException
                    ("Function calling error: " +:+
                     "Function " +:+ tool_function_name tool +:+ " not found")),
           st_trace st ++ callbackEvents served_tools calls))
  ∧ (∀ input error rest,
        functionCalling callbacks input (Throw error :: rest)
        = (Throw (BadRequestException ("Function calling error: " +:+ message error)),
           [CompletionCall (initialMessages input callbacks)
                           (Some (functions callbacks))])).
Proof.
  split; [|split; [|split; [|split; [|split; [|done]]]]].
  - intros input script. unfold functionCalling.
    by destruct (functionCallingBody callbacks input script) as [[answer|underlying] trace].
  - intros input script error. unfold functionCalling.
    destruct (functionCallingBody callbacks input script) as [[answer|underlying] trace];
      simpl; [done|].
    intros [= <-]. by exists underlying.
  - intros input llmResponse rest n st choice others tools underlying trace
      Hreach Hchoice Hreason Htools Hrun.
    pose proof (reached_tool_round input llmResponse rest n st choice others _
                  Hreach Hchoice Hreason Htools) as Hround.
    rewrite Hrun in Hround. unfold functionCalling. by rewrite Hround.
  - intros input llmResponse rest n st choice others before tool remaining
      Hreach Hchoice Hreason Htools Hunknown.
    pose proof (reached_tool_round input llmResponse rest n st choice others _
                  Hreach Hchoice Hreason Htools) as Hround.
    destruct (runToolCalls_unknown_anywhere before tool remaining
                (st_messages st ++ [AssistantReply (choice_message choice)])
                (st_trace st) Hunknown) as (underlying & events & Hrun & Hprefix).
    rewrite Hrun in Hround. exists underlying, events.
    split; [|done]. unfold functionCalling. by rewrite Hround.
  - intros input llmResponse rest n st choice others served_tools tool remaining calls
      Hreach Hchoice Hreason Htools Hserved Hunknown.
    pose proof (reached_tool_round input llmResponse rest n st choice others _
                  Hreach Hchoice Hreason Htools) as Hround.
    rewrite (runToolCalls_unknown callbacks _ _ _ _ _ _ Hserved Hunknown) in Hround.
    unfold functionCalling. by rewrite Hround.
Qed.

(** C8. When the loop ends (the top choice of the last completion does not
    stop for "tool_calls"), the next and last event of the run is a
    completion call without tools whose context is exactly two messages:
    a user message with the original input and a system message quoting
    the input and the content of that last assistant message and asking
    for a final response; nothing of the accumulated history is sent.  The
    answer is the text content of that completion's top choice, trimmed. *)
Theorem finalization_fresh_context input llmResponse rest n st choice others :
  afterRounds callbacks n (startState callbacks input llmResponse rest) = Some st →
  choices (st_response st) = choice :: others →
  finish_reason choice ≠ "tool_calls" →
  snd (functionCalling callbacks input (Ok llmResponse :: rest))
  = st_trace st ++
    [CompletionCall
       [UserMessage input;
        SystemMessage ("A user asks: " +:+ dquote +:+ input +:+ dquote +:+
                       ". The result was: " +:+
                       render (content (choice_message choice)) +:+
                       ". Formulate a final response.")]
       None]
  ∧ (∀ finalResponse later finalChoice finalOthers text,
        st_script st = Ok finalResponse :: later →
        choices finalResponse = finalChoice :: finalOthers →
        content (choice_message finalChoice) = Some text →
        fst (functionCalling callbacks input (Ok llmResponse :: rest))
        = Ok (Some (String_trim text))).
Proof.
  intros Hreach Hchoice Hreason.
  unfold functionCalling.
  rewrite (functionCalling_reached _ _ _ _ _ _ Hreach).
  unfold runLoop. rewrite toolLoop_unfold.
  unfold topChoice. rewrite Hchoice.
  apply String.eqb_neq in Hreason. rewrite Hreason. simpl.
  unfold topChoice. rewrite Hchoice. unfold create. split.
  - by destruct (nextOutcome (st_script st)) as [[finalResponse|error] rest'].
  - intros finalResponse later finalChoice finalOthers text Hscript Hfinal Htext.
    rewrite Hscript. simpl. unfold finalAnswer. by rewrite Hfinal, Htext.
Qed.

End OrchestratorClaims.

Lemma tool_round_order_witness :
  ∃ later,
    snd (@functionCalling sampleRuntime sampleCallbacks "Convert 100 COP to USD"
           twoToolScript)
    = [CompletionCall (initialMessages "Convert 100 COP to USD" sampleCallbacks)
                      (Some (functions sampleCallbacks))] ++
      [CallbackInvoked "convertCurrencies" (JArray [JNumber 100]);
       CallbackInvoked "searchProducts" (JArray [JNumber 7])] ++
      CompletionCall
        (initialMessages "Convert 100 COP to USD" sampleCallbacks ++
         [AssistantReply
            {| content := None; tool_calls := Some [convertCall; searchCall] |}] ++
         [ToolMessage "rate:[100]" "call_1"; ToolMessage "products:[7]" "call_2"] ++
         [SystemMessage (nudge sampleCallbacks)])
        (Some (functions sampleCallbacks)) :: later.
Proof.
  destruct (@tool_round_order sampleRuntime sampleCallbacks "Convert 100 COP to USD"
              (requestTools [convertCall; searchCall])
              [Ok (plainAnswer "100 COP is 0.02 USD");
               Ok (plainAnswer "  You get 0.02 USD.  ")]
              0 _ _ [] [convertCall; searchCall]
              eq_refl eq_refl eq_refl eq_refl) as [_ Hserved].
  apply (Hserved [(JArray [JNumber 100], "rate:[100]");
                  (JArray [JNumber 7], "products:[7]")]).
  repeat constructor.
  - exists (echo "rate:"). repeat split; reflexivity.
  - exists (echo "products:"). repeat split; reflexivity.
Defined.

Lemma no_tool_calls_two_completions_witness :
  snd (@functionCalling sampleRuntime sampleCallbacks "hello"
         [Ok (plainAnswer "Hi"); Ok (plainAnswer " Hello! ")])
  = [CompletionCall (initialMessages "hello" sampleCallbacks)
                    (Some (functions sampleCallbacks));
     CompletionCall (finalMessage "hello" (Some "Hi")) None].
Proof.
  apply (@no_tool_calls_two_completions sampleRuntime sampleCallbacks "hello"
           (plainAnswer "Hi") [Ok (plainAnswer " Hello! ")] _ [] eq_refl).
  discriminate.
Defined.

Lemma unknown_tool_fails_witness :
  @functionCalling sampleRuntime sampleCallbacks "Cancel my order" unknownToolScript
  = (Throw (BadRequestException
              "Function calling error: Function cancelOrder not found"),
     [CompletionCall (initialMessages "Cancel my order" sampleCallbacks)
                     (Some (functions sampleCallbacks));
      CallbackInvoked "convertCurrencies" (JArray [JNumber 100])])
  ∧ ∃ underlying events,
      @functionCalling sampleRuntime sampleCallbacks "Cancel my order"
        [Ok (requestTools [garbledCall; unknownCall; searchCall]);
         Ok (plainAnswer "never asked for")]
      = (Throw (BadRequestException
                  ("Function calling error: " +:+ message underlying)),
         [CompletionCall (initialMessages "Cancel my order" sampleCallbacks)
                         (Some (functions sampleCallbacks))] ++ events)
      ∧ events `prefix_of` flat_map (@invocation sampleRuntime) [garbledCall].
Proof.
  assert (Hunknown : ∀ fn, fn ∈ sampleCallbacks →
                           fn_name fn ≠ tool_function_name unknownCall).
  { intros fn Hin.
    repeat (apply elem_of_cons in Hin as [-> | Hin]); try discriminate.
    inversion Hin. }
  destruct (@unknown_tool_fails sampleRuntime sampleCallbacks)
    as (_ & _ & _ & Hanywhere & Hserved & _).
  split.
  - apply (Hserved "Cancel my order"
             (requestTools [convertCall; unknownCall; searchCall])
             [Ok (plainAnswer "never asked for")]
             0%nat _ _ [] [convertCall] unknownCall [searchCall]
             [(JArray [JNumber 100], "rate:[100]")]
             eq_refl eq_refl eq_refl eq_refl); [|exact Hunknown].
    repeat constructor. exists (echo "rate:"). repeat split; reflexivity.
  - destruct (Hanywhere "Cancel my order"
                (requestTools [garbledCall; unknownCall; searchCall])
                [Ok (plainAnswer "never asked for")]
                0%nat _ _ [] [garbledCall] unknownCall [searchCall]
                eq_refl eq_refl eq_refl eq_refl Hunknown)
      as (underlying & events & Hrun & Hprefix).
    exists underlying, events. split; [exact Hrun | exact Hprefix].
Defined.

Lemma finalization_fresh_context_witness :
  snd (@functionCalling sampleRuntime sampleCallbacks "Convert 100 COP to USD"
         twoToolScript)
  !! 4%nat
  = Some (CompletionCall
            [UserMessage "Convert 100 COP to USD";
             SystemMessage ("A user asks: " +:+ dquote +:+ "Convert 100 COP to USD"
                            +:+ dquote +:+
                            ". The result was: 100 COP is 0.02 USD. Formulate a final response.")]
            None)
  ∧ fst (@functionCalling sampleRuntime sampleCallbacks "Convert 100 COP to USD"
           twoToolScript)
    = Ok (Some "You get 0.02 USD.").
Proof.
  edestruct (@finalization_fresh_context sampleRuntime sampleCallbacks
               "Convert 100 COP to USD"
               (requestTools [convertCall; searchCall])
               [Ok (plainAnswer "100 COP is 0.02 USD");
                Ok (plainAnswer "  You get 0.02 USD.  ")]
               1%nat) as [Htrace Hanswer].
  - reflexivity.
  - reflexivity.
  - discriminate.
  - split.
    + etransitivity; [exact (f_equal (fun trace => trace !! 4%nat) Htrace)|].
      reflexivity.
    + exact (Hanswer _ _ _ _ "  You get 0.02 USD.  " eq_refl eq_refl eq_refl).
Defined.

(** * The search flow and the lookup providers *)

Section SearchClaims.

Context `{JsRuntime}.

Lemma validateResponseFormat_integers responseMessage xs :
  JSON_parse (render responseMessage) = Ok (JArray xs) →
  forallb Number_isInteger xs = true →
  validateResponseFormat responseMessage = Ok (map integerValue xs).
Proof.
  intros Hparse Hints. unfold validateResponseFormat. by rewrite Hparse, Hints.
Qed.

Lemma validateResponseFormat_invalid responseMessage :
  (∀ xs, JSON_parse (render responseMessage) = Ok (JArray xs) →
         forallb Number_isInteger xs = false) →
  validateResponseFormat responseMessage
  = Throw (BadRequestException ("Invalid response format from search: " +:+
                                render responseMessage)).
Proof.
  intros Hbad. unfold validateResponseFormat.
  destruct (JSON_parse (render responseMessage)) as [[| | | |xs|]|error]; try done.
  by rewrite (Hbad xs).
Qed.

(** C6. When the model's answer parses as a JSON array whose elements are
    all integers, [searchItems] returns those integers; in every other case
    (the call fails, there is no choice, the text is not JSON, is not an
    array, or holds an element that is not an integer) it returns the empty
    list instead of failing. *)
Theorem searchItems_swallows_failures searchTerm items constraints script :
  (∀ xs, integerArrayResponse script xs →
         fst (searchItems searchTerm items constraints script) = map integerValue xs)
  ∧ ((∀ xs, ¬ integerArrayResponse script xs) →
     fst (searchItems searchTerm items constraints script) = []).
Proof.
  unfold searchItems, searchItemsBody, create. split.
  - intros xs (llmResponse & rest & choice & others & -> & Hchoice & Hparse & Hints).
    simpl. unfold topChoice. rewrite Hchoice.
    by rewrite (validateResponseFormat_integers _ xs).
  - intros Hnone.
    destruct script as [|[llmResponse|error] rest]; simpl; [done| |done].
    unfold topChoice. destruct (choices llmResponse) as [|choice others] eqn:Hchoice;
      [done|].
    rewrite validateResponseFormat_invalid; [done|].
    intros xs Hparse. apply not_true_is_false. intros Hints.
    apply (Hnone xs). by exists llmResponse, rest, choice, others.
Qed.

(** C7, as the code behaves.  When the search finds nothing, the
    [NotFoundException] raised inside [searchByName] is caught by the
    [catch] block of the same function: what reaches the caller is a
    [BadRequestException], the class of every other failure, and never the
    [NotFoundException] that the function documents. *)
Theorem searchByName_not_found_is_bad_request products name script :
  fst (searchItems name (map displayTitle products) "Must select 2 items." script) = [] →
  searchByName products name script
  = Throw (BadRequestException
             ("Unable to search products: " +:+ "No products found for: " +:+ name))
  ∧ ∀ msg, searchByName products name script ≠ Throw (NotFoundException msg).
Proof.
  intros Hnone. unfold searchByName. rewrite Hnone. simpl. split; [done|].
  intros msg. discriminate.
Qed.

Lemma arrayGet_in_range (products : list Product) index :
  1 <= index <= Z.of_nat (length products) →
  ∃ product, products !! Z.to_nat (index - 1) = Some product
             ∧ arrayGet products (index - 1) = Some product.
Proof.
  intros Hrange. unfold arrayGet.
  destruct (Z.ltb_spec (index - 1) 0) as [Hneg|_]; [lia|].
  destruct (lookup_lt_is_Some_2 products (Z.to_nat (index - 1))) as [product Hlook];
    [lia|].
  by exists product.
Qed.

Lemma arrayGet_out_of_range (products : list Product) index :
  index < 1 ∨ Z.of_nat (length products) < index →
  arrayGet products (index - 1) = None.
Proof.
  intros Hrange. unfold arrayGet.
  destruct (Z.ltb_spec (index - 1) 0) as [Hneg|Hpos]; [done|].
  apply lookup_ge_None. lia.
Qed.

(** C9. [searchByName] uses the indices returned by [searchItems] as they
    are: it never fails on them, and its result is the JSON array whose
    element for an index i within 1..N is the catalog entry at position
    i - 1 and whose element for any other index (0, a negative number, a
    number above N) is null. *)
Theorem searchByName_unchecked_indices products name script indices :
  fst (searchItems name (map displayTitle products) "Must select 2 items." script)
  = indices →
  indices ≠ [] →
  ∃ elements,
    searchByName products name script = Ok ("[" +:+ join "," elements +:+ "]")
    ∧ Forall2
        (fun index element =>
           (1 <= index <= Z.of_nat (length products)
            ∧ ∃ product, products !! Z.to_nat (index - 1) = Some product
                         ∧ element = JSON_stringify (productJSON product))
           ∨ ((index < 1 ∨ Z.of_nat (length products) < index)
              ∧ element = "null"))
        indices elements.
Proof.
  intros Hindices Hsome.
  exists (map stringifyElement (map (fun index => arrayGet products (index - 1)) indices)).
  split.
  - unfold searchByName. rewrite Hindices.
    destruct indices as [|index indices]; [done|]. reflexivity.
  - clear Hindices Hsome. induction indices as [|index indices IH]; simpl.
    + constructor.
    + constructor; [|exact IH].
      destruct (decide (1 <= index <= Z.of_nat (length products))) as [Hin|Hout].
      * left. split; [done|].
        destruct (arrayGet_in_range products index Hin) as (product & Hlook & Hget).
        exists product. by rewrite Hget.
      * right. assert (Hrange : index < 1 ∨ Z.of_nat (length products) < index) by lia.
        split; [done|]. by rewrite arrayGet_out_of_range.
Qed.

End SearchClaims.

Lemma searchItems_swallows_failures_witness :
  fst (@searchItems sampleRuntime "phone" ["iPhone 12"; "iPhone 13"]
         "Must select 2 items." [Ok (plainAnswer "[1, 2]")])
  = [1; 2]
  ∧ fst (@searchItems sampleRuntime "phone" ["iPhone 12"; "iPhone 13"]
           "Must select 2 items." [Ok (plainAnswer "The first two.")])
    = [].
Proof.
  split.
  - apply (proj1 (@searchItems_swallows_failures sampleRuntime "phone"
                    ["iPhone 12"; "iPhone 13"] "Must select 2 items."
                    [Ok (plainAnswer "[1, 2]")])
             [JNumber 1; JNumber 2]).
    exists (plainAnswer "[1, 2]"), [], 
      {| finish_reason := "stop";
         choice_message := {| content := Some "[1, 2]"; tool_calls := None |} |}, [].
    repeat split; reflexivity.
  - apply (proj2 (@searchItems_swallows_failures sampleRuntime "phone"
                    ["iPhone 12"; "iPhone 13"] "Must select 2 items."
                    [Ok (plainAnswer "The first two.")])).
    intros xs (llmResponse & rest & choice & others & Hscript & Hchoice & Hparse & _).
    injection Hscript as <- <-. injection Hchoice as <- <-.
    vm_compute in Hparse. discriminate.
Defined.

Lemma searchByName_not_found_is_bad_request_witness :
  @searchByName sampleRuntime catalog "piano" [Ok (plainAnswer "[]")]
  = Throw (BadRequestException
             "Unable to search products: No products found for: piano").
Proof.
  apply (@searchByName_not_found_is_bad_request sampleRuntime catalog "piano"
           [Ok (plainAnswer "[]")]).
  reflexivity.
Defined.

Lemma searchByName_unchecked_indices_witness :
  ∃ elements,
    @searchByName sampleRuntime catalog "phone" [Ok (plainAnswer "[2, 0, 5, -1]")]
    = Ok ("[" +:+ join "," elements +:+ "]")
    ∧ Forall2
        (fun index element =>
           (1 <= index <= 2
            ∧ ∃ product, catalog !! Z.to_nat (index - 1) = Some product
                         ∧ element = sampleStringify (productJSON product))
           ∨ ((index < 1 ∨ 2 < index) ∧ element = "null"))
        [2; 0; 5; -1] elements.
Proof.
  apply (@searchByName_unchecked_indices sampleRuntime catalog "phone"
           [Ok (plainAnswer "[2, 0, 5, -1]")] [2; 0; 5; -1]).
  - reflexivity.
  - discriminate.
Defined.

Example searchByName_null_elements :
  @searchByName sampleRuntime catalog "phone" [Ok (plainAnswer "[2, 0, 5, -1]")]
  = Ok ("[" +:+ sampleStringify (productJSON iphone13) +:+ ",null,null,null]").
Proof. vm_compute. reflexivity. Qed.

(** * The currency conversion *)

Section CurrencyClaims.

Context `{JsRuntime}.
Implicit Types (api : ExchangeApi) (amount : float) (from to : string).

Lemma noCurrency_false currencies code name :
  currencies !! code = Some name → name ≠ EmptyString → noCurrency currencies code = false.
Proof.
  intros Hlook Hname. unfold noCurrency, getMember. rewrite Hlook.
  by apply String.eqb_neq.
Qed.

Lemma noRate_false table code rate :
  table !! code = Some rate → falsyNumber rate = false → noRate table code = false.
Proof. intros Hlook Hrate. unfold noRate, getMember. by rewrite Hlook. Qed.

Lemma noCurrency_absent currencies code :
  currencies !! code = None → code ∉ objectPrototypeMembers →
  noCurrency currencies code = true.
Proof.
  intros Hlook Hown. unfold noCurrency, getMember. rewrite Hlook.
  by rewrite bool_decide_eq_false_2.
Qed.

Lemma noRate_absent table code :
  table !! code = None → code ∉ objectPrototypeMembers → noRate table code = true.
Proof.
  intros Hlook Hown. unfold noRate, getMember. rewrite Hlook.
  by rewrite bool_decide_eq_false_2.
Qed.

(** C10, as the code has it.  When both fetches succeed and both codes have
    a non-empty name in the currency list and a rate that is neither zero
    nor NaN in the rate table, [convert] returns
    (amount / rates[from]) * rates[to]; when a fetch is not ok, or a code
    is missing from the currency list or from the rate table and is not one
    of the names every object inherits from [Object.prototype], it fails. *)
Theorem convert_cross_rate api amount from to :
  (∀ currencies table nameFrom nameTo rateFrom rateTo,
      fetchCurrencies api = Ok {| ok := true; json := Ok (SlotObject currencies) |} →
      fetchLatest api
      = Ok {| ok := true; json := Ok (SlotObject {| rates := SlotObject table |}) |} →
      currencies !! from = Some nameFrom → nameFrom ≠ EmptyString →
      currencies !! to = Some nameTo → nameTo ≠ EmptyString →
      table !! from = Some rateFrom → falsyNumber rateFrom = false →
      table !! to = Some rateTo → falsyNumber rateTo = false →
      convert api amount from to
      = Ok (PrimFloat.mul (PrimFloat.div amount rateFrom) rateTo))
  ∧ (∀ response,
        fetchCurrencies api = Ok response → ok response = false →
        isThrow (convert api amount from to))
  ∧ (∀ response currencies,
        fetchCurrencies api = Ok response →
        json response = Ok (SlotObject currencies) →
        (currencies !! from = None ∧ from ∉ objectPrototypeMembers)
        ∨ (currencies !! to = None ∧ to ∉ objectPrototypeMembers) →
        isThrow (convert api amount from to))
  ∧ (∀ ratesResponse,
        fetchLatest api = Ok ratesResponse → ok ratesResponse = false →
        isThrow (convert api amount from to))
  ∧ (∀ ratesResponse ratesData table,
        fetchLatest api = Ok ratesResponse →
        json ratesResponse = Ok (SlotObject ratesData) →
        rates ratesData = SlotObject table →
        (table !! from = None ∧ from ∉ objectPrototypeMembers)
        ∨ (table !! to = None ∧ to ∉ objectPrototypeMembers) →
        isThrow (convert api amount from to)).
Proof.
  split; [|split; [|split; [|split]]].
  - intros currencies table nameFrom nameTo rateFrom rateTo
      Hcur Hlatest HnameFrom HneFrom HnameTo HneTo HrateFrom HokFrom HrateTo HokTo.
    unfold convert. rewrite Hcur, Hlatest. simpl.
    rewrite (noCurrency_false _ _ _ HnameFrom HneFrom).
    rewrite (noCurrency_false _ _ _ HnameTo HneTo).
    rewrite (noRate_false _ _ _ HrateFrom HokFrom).
    rewrite (noRate_false _ _ _ HrateTo HokTo). simpl.
    unfold rateOf, getMember. by rewrite HrateFrom, HrateTo.
  - intros response Hcur Hok. unfold convert. by rewrite Hcur, Hok.
  - intros response currencies Hcur Hjson Hmissing. unfold convert.
    rewrite Hcur, Hjson. destruct (ok response); simpl; [|done].
    assert (Hno : noCurrency currencies from || noCurrency currencies to = true).
    { destruct Hmissing as [[Hlook Hown] | [Hlook Hown]].
      - by rewrite noCurrency_absent.
      - by rewrite (noCurrency_absent _ to), orb_true_r. }
    by rewrite Hno.
  - intros ratesResponse Hlatest Hok. unfold convert. rewrite Hlatest, Hok.
    destruct (fetchCurrencies api) as [response|error]; [|done].
    destruct (ok response); simpl; [|done].
    destruct (json response) as [body|error]; [|done].
    destruct (readProperty body from) as [currencies|error]; [|done].
    by destruct (noCurrency currencies from || noCurrency currencies to).
  - intros ratesResponse ratesData table Hlatest Hjson Hrates Hmissing.
    unfold convert. rewrite Hlatest, Hjson.
    destruct (fetchCurrencies api) as [response|error]; [|done].
    destruct (ok response); simpl; [|done].
    destruct (json response) as [body|error]; [|done].
    destruct (readProperty body from) as [currencies|error]; [|done].
    destruct (noCurrency currencies from || noCurrency currencies to); [done|].
    destruct (ok ratesResponse); simpl; [|done].
    rewrite Hrates. simpl.
    assert (Hno : noRate table from || noRate table to = true).
    { destruct Hmissing as [[Hlook Hown] | [Hlook Hown]].
      - by rewrite noRate_absent.
      - by rewrite (noRate_absent _ to), orb_true_r. }
    by rewrite Hno.
Qed.

End CurrencyClaims.

Lemma convert_cross_rate_witness :
  @convert sampleRuntime (exchangeApi usualRates) 8000 "COP" "EUR" = Ok 1%float.
Proof.
  apply (proj1 (@convert_cross_rate sampleRuntime (exchangeApi usualRates)
                  8000 "COP" "EUR")
           currencyList usualRates "Colombian Peso" "Euro" 4000%float 0.5%float);
    try reflexivity; discriminate.
Defined.

(** C10, counterexample.  Presence is not what the guards test.  USD and EUR
    are listed and have an entry in the rate table, and yet the call fails:
    the rate of USD is 0, which the guard reads as missing.  And
    constructor is in neither table, and yet the call returns a value, NaN:
    the lookups find the member that every object inherits. *)
Lemma convert_presence_counterexample :
  (currencyList !! "USD" = Some "United States Dollar"
   ∧ currencyList !! "EUR" = Some "Euro"
   ∧ zeroRates !! "USD" = Some 0%float
   ∧ zeroRates !! "EUR" = Some 0.5%float
   ∧ ∃ msg, @convert sampleRuntime (exchangeApi zeroRates) 100 "USD" "EUR"
            = Throw (BadRequestException msg))
  ∧ (currencyList !! "constructor" = None
     ∧ usualRates !! "constructor" = None
     ∧ ∃ value, @convert sampleRuntime (exchangeApi usualRates) 100 "constructor" "USD"
                = Ok value
                ∧ PrimFloat.is_nan value = true).
Proof.
  split.
  - repeat split; try reflexivity. eexists. reflexivity.
  - repeat split; try reflexivity. eexists. split; reflexivity.
Qed.

(** * Further properties of the registry and the schema *)

Section RegistryFacts.

Implicit Types (callbacks : list NPLFunction) (params : list NPLFunctionCallingParams).

Lemma addParams_declared (acc : gmap string Property) (requiredParams : list string)
  params (n : string) :
  is_Some (fst (foldl addParam (acc, requiredParams) params) !! n)
  ↔ is_Some (acc !! n) ∨ n ∈ map param_name params.
Proof.
  revert acc requiredParams.
  induction params as [|param params IH]; intros acc requiredParams; simpl.
  - split; [by left|]. intros [Hacc|Hin]; [done|]. by apply elem_of_nil in Hin.
  - rewrite IH. rewrite lookup_insert_is_Some. rewrite elem_of_cons. split.
    + intros [[Heq|[_ Hacc]]|Hin]; auto.
    + intros [Hacc|[Heq|Hin]]; auto.
      destruct (decide (param_name param = n)); auto.
Qed.

Lemma getCallback_registered callbacks functionName callback :
  getCallbackByFunctionName callbacks functionName = Ok callback →
  functionName ∈ map fn_name callbacks.
Proof.
  unfold getCallbackByFunctionName.
  destruct (find _ callbacks) as [cb|] eqn:Hfind; [|done].
  intros _. apply find_some in Hfind as [Hin Heq].
  apply String.eqb_eq in Heq. subst functionName.
  apply list_elem_of_fmap. exists cb. split; [done|]. by apply list_elem_of_In.
Qed.

(** X1. Dispatch is by first match: a tool is reached under its name when
    no tool registered before it has the same name.  With unique names every
    tool is reached; with a repeated name only the first one ever is. *)
Theorem getCallback_first_match callbacks before fn after :
  callbacks = before ++ fn :: after →
  (∀ other, other ∈ before → fn_name other ≠ fn_name fn) →
  getCallbackByFunctionName callbacks (fn_name fn) = Ok (fn_callback fn).
Proof.
  intros -> Hfirst. unfold getCallbackByFunctionName.
  induction before as [|other before IH]; simpl.
  - by rewrite String.eqb_refl.
  - destruct (String.eqb_spec (fn_name other) (fn_name fn)) as [Heq|_].
    + destruct (Hfirst other); [by left | done].
    + apply IH. intros other' Hin. apply Hfirst. by right.
Qed.

(** X2. Whatever the registry, the keys of the schema's [properties] are
    exactly the parameter names that some tool declares, and every name of
    the [required] list has an entry in [properties]. *)
Theorem schema_required_declared callbacks :
  (∀ n, is_Some (properties (sharedParameters callbacks) !! n)
        ↔ n ∈ map param_name (allParams callbacks))
  ∧ (∀ n, n ∈ required (sharedParameters callbacks) →
          is_Some (properties (sharedParameters callbacks) !! n)).
Proof.
  assert (Hkeys : ∀ n, is_Some (properties (sharedParameters callbacks) !! n)
                       ↔ n ∈ map param_name (allParams callbacks)).
  { intros n. simpl. rewrite collectParams_flat, addParams_declared.
    rewrite lookup_empty. split; [|by right].
    intros [Hempty|Hin]; [|done]. by destruct Hempty. }
  split; [exact Hkeys|].
  intros n Hreq. apply Hkeys.
  rewrite required_sharedParameters, <- requiredNames_allParams in Hreq.
  apply elem_of_requiredNames in Hreq as (param & Hin & _ & <-).
  apply list_elem_of_fmap. eauto.
Qed.

(** X3. The parameter object is shared, so a parameter that one tool
    requires is required by the schema entry of every tool of the registry,
    also of the tools that do not declare it. *)
Theorem schema_cross_tool_required callbacks fn param tool :
  fn ∈ callbacks →
  param ∈ fn_params fn →
  param_required param = true →
  tool ∈ functions callbacks →
  param_name param ∈ required (parameters (function tool))
  ∧ is_Some (properties (parameters (function tool)) !! param_name param).
Proof.
  intros Hfn Hparam Hreq Htool.
  unfold functions in Htool. apply list_elem_of_fmap in Htool as (owner & -> & _).
  cbn [function parameters].
  assert (Hin : param_name param ∈ required (sharedParameters callbacks)).
  { rewrite required_sharedParameters, <- requiredNames_allParams.
    apply elem_of_requiredNames. exists param. split; [|done].
    apply elem_of_allParams. eauto. }
  split; [exact Hin|].
  simpl. rewrite collectParams_flat. apply addParams_declared. right.
  apply list_elem_of_fmap. exists param. split; [done|].
  apply elem_of_allParams. eauto.
Qed.

End RegistryFacts.

Lemma getCallback_first_match_witness :
  ∃ callback,
    getCallbackByFunctionName sampleCallbacks "searchProducts" = Ok callback
    ∧ callback (JArray []) = Ok "products:[]".
Proof.
  eexists. split.
  - apply (getCallback_first_match sampleCallbacks
             [ {| fn_name := "convertCurrencies";
                  fn_description :=
                    "Convert a specified amount from one currency to another";
                  fn_callback := echo "rate:";
                  fn_params :=
                    [ {| param_name := "amount";
                         param_description := "Amount to convert (e.g., 100).";
                         param_type := TNumber;
                         param_required := true |};
                      {| param_name := "from";
                         param_description :=
                           "Currency code to convert from (e.g., " +:+ dquote +:+
                           "COP" +:+ dquote +:+ ").";
                         param_type := TString;
                         param_required := true |};
                      {| param_name := "to";
                         param_description :=
                           "Currency code to convert to (e.g., " +:+ dquote +:+
                           "USD" +:+ dquote +:+ ").";
                         param_type := TString;
                         param_required := true |} ] |} ]
             {| fn_name := "searchProducts";
                fn_description := "Search for products in the inventory";
                fn_callback := echo "products:";
                fn_params :=
                  [ {| param_name := "name";
                       param_description := "Name of the product";
                       param_type := TString;
                       param_required := true |} ] |}
             []).
    + reflexivity.
    + intros other Hin. apply list_elem_of_singleton in Hin as ->. discriminate.
  - reflexivity.
Defined.

Lemma schema_cross_tool_required_witness :
  ∃ tool,
    def_name (function tool) = "searchProducts"
    ∧ "amount" ∈ required (parameters (function tool)).
Proof.
  edestruct (schema_cross_tool_required sampleCallbacks) as [Hreq _].
  - apply list_elem_of_here.
  - apply list_elem_of_here.
  - reflexivity.
  - apply list_elem_of_further, list_elem_of_here.
  - eexists. split; [|exact Hreq]. reflexivity.
Defined.

(** * Further properties of the orchestrator *)

Section OrchestratorMore.

Context `{JsRuntime}.
Variable callbacks : list NPLFunction.

Lemma runToolCalls_app_served served_tools calls remaining messages trace :
  Forall2 (served callbacks) served_tools calls →
  runToolCalls callbacks (served_tools ++ remaining) messages trace
  = runToolCalls callbacks remaining
      (messages ++ toolMessages served_tools calls)
      (trace ++ callbackEvents served_tools calls).
Proof.
  intros Hserved. revert messages trace.
  induction Hserved as [|tool call tools calls (callback & Hcb & Hparse & Hres) _ IH];
    intros messages trace; simpl.
  - by rewrite !app_nil_r.
  - rewrite Hcb, Hparse, Hres, IH. unfold toolMessages, callbackEvents. simpl.
    by rewrite <- !app_assoc.
Qed.

Lemma runToolCalls_shape tools messages trace :
  ∃ events,
    snd (runToolCalls callbacks tools messages trace) = trace ++ events
    ∧ Forall (loopEvent callbacks) events
    ∧ (∀ messages', fst (runToolCalls callbacks tools messages trace) = Ok messages' →
         ∃ added, messages' = messages ++ added
                  ∧ Forall isToolMessage added
                  ∧ length added = length tools).
Proof.
  revert messages trace.
  induction tools as [|tool tools IH]; intros messages trace; simpl.
  - exists []. rewrite app_nil_r. split; [done|]. split; [constructor|].
    intros messages' [= <-]. exists []. by rewrite app_nil_r.
  - destruct (getCallbackByFunctionName callbacks (tool_function_name tool))
      as [callback|error] eqn:Hcb; simpl.
    + destruct (JSON_parse (tool_function_arguments tool)) as [params|error]; simpl.
      * assert (Hevent : loopEvent callbacks
                           (CallbackInvoked (tool_function_name tool) params)).
        { simpl. by eapply getCallback_registered. }
        destruct (callback params) as [functionResult|error]; simpl.
        -- destruct (IH (messages ++ [ToolMessage functionResult (tool_id tool)])
                        (trace ++ [CallbackInvoked (tool_function_name tool) params]))
             as (events & Htrace & Hevents & Hmessages).
           exists (CallbackInvoked (tool_function_name tool) params :: events).
           rewrite Htrace, <- app_assoc. split; [done|].
           split; [by constructor|].
           intros messages' Hok. destruct (Hmessages messages' Hok)
             as (added & -> & Hadded & Hlen).
           exists (ToolMessage functionResult (tool_id tool) :: added).
           rewrite <- app_assoc. split; [done|]. split; [by constructor|].
           simpl. by rewrite Hlen.
        -- exists [CallbackInvoked (tool_function_name tool) params].
           split; [done|]. split; [by constructor|]. done.
      * exists []. rewrite app_nil_r. split; [done|]. split; [constructor|done].
    + exists []. rewrite app_nil_r. split; [done|]. split; [constructor|done].
Qed.

Lemma toolLoop_shape script llmResponse messages trace :
  ∃ later,
    snd (toolLoop callbacks script llmResponse messages trace) = trace ++ later
    ∧ Forall (loopEvent callbacks) later.
Proof.
  revert llmResponse messages trace.
  induction script as [|outcome script IH]; intros llmResponse messages trace;
    rewrite toolLoop_unfold.
  all: destruct (topChoice llmResponse "finish_reason") as [choice|error];
    [|exists []; rewrite app_nil_r; split; [done|constructor]].
  all: destruct (String.eqb (finish_reason choice) "tool_calls");
    [|exists []; rewrite app_nil_r; split; [done|constructor]].
  all: unfold toolRound;
    destruct (tool_calls (choice_message choice)) as [tools|];
    [|exists []; rewrite app_nil_r; split; [done|constructor]].
  all: destruct (runToolCalls_shape tools
                   (messages ++ [AssistantReply (choice_message choice)]) trace)
         as (events & Htrace & Hevents & _).
  all: destruct (runToolCalls callbacks tools _ trace) as [[messages'|error] trace'];
    simpl in Htrace; subst trace'; [|by exists events].
  - eexists. simpl. rewrite <- app_assoc. split; [done|].
    apply Forall_app. split; [done|]. by repeat constructor.
  - destruct outcome as [llmResponse'|error].
    + destruct (IH llmResponse' (messages' ++ [SystemMessage (nudge callbacks)])
                  ((trace ++ events) ++
                   [CompletionCall (messages' ++ [SystemMessage (nudge callbacks)])
                                   (Some (functions callbacks))]))
        as (later & Hlater & Hloop).
      simpl. rewrite Hlater. eexists. rewrite <- !app_assoc. split; [done|].
      apply Forall_app. split; [done|]. apply Forall_app. split; [|done].
      by repeat constructor.
    + eexists. simpl. rewrite <- app_assoc. split; [done|].
      apply Forall_app. split; [done|]. by repeat constructor.
Qed.

Lemma finalize_shape input outcome :
  ∃ final,
    snd (finalize input outcome) = snd outcome ++ final
    ∧ (final = [] ∨ ∃ result, final = [CompletionCall (finalMessage input result) None])
    ∧ (∀ answer, fst (finalize input outcome) = Ok answer → final ≠ []).
Proof.
  destruct outcome as [[[llmResponse|error] script] trace]; simpl.
  - destruct (topChoice llmResponse "message") as [choice|error]; simpl.
    + unfold create. destruct (nextOutcome script) as [[finalResponse|error] rest];
        simpl; eexists; (split; [done|]); (split; [right; by eexists|done]).
    + exists []. rewrite app_nil_r. split; [done|]. split; [by left|done].
  - exists []. rewrite app_nil_r. split; [done|]. split; [by left|done].
Qed.

(** X4. When the arguments of a requested tool are not valid JSON (the
    requests before it having been served), the callback is not invoked and
    the run fails with "Function calling error: " followed by the parser's
    message; the later requests are not run and no completion call
    follows. *)
Theorem unparseable_arguments_fail input llmResponse rest n st choice others
  served_tools tool remaining calls callback error :
  afterRounds callbacks n (startState callbacks input llmResponse rest) = Some st →
  choices (st_response st) = choice :: others →
  finish_reason choice = "tool_calls" →
  tool_calls (choice_message choice) = Some (served_tools ++ tool :: remaining) →
  Forall2 (served callbacks) served_tools calls →
  getCallbackByFunctionName callbacks (tool_function_name tool) = Ok callback →
  JSON_parse (tool_function_arguments tool) = Throw error →
  functionCalling callbacks input (Ok llmResponse :: rest)
  = (Throw (BadRequestException ("Function calling error: " +:+ message error)),
     st_trace st ++ callbackEvents served_tools calls).
Proof.
  intros Hreach Hchoice Hreason Htools Hserved Hcb Hparse.
  pose proof (reached_tool_round callbacks input llmResponse rest n st choice others _
                Hreach Hchoice Hreason Htools) as Hround.
  rewrite (runToolCalls_app_served _ _ _ _ _ Hserved) in Hround.
  simpl in Hround. rewrite Hcb, Hparse in Hround.
  unfold functionCalling. by rewrite Hround.
Qed.

(** X5. When a callback fails (the requests before it having been served),
    it has been invoked once, its error ends the run as
    "Function calling error: " followed by the callback's message, no tool
    message is produced for it, the later requests are not run and no
    completion call follows. *)
Theorem callback_failure_fails input llmResponse rest n st choice others
  served_tools tool remaining calls callback params error :
  afterRounds callbacks n (startState callbacks input llmResponse rest) = Some st →
  choices (st_response st) = choice :: others →
  finish_reason choice = "tool_calls" →
  tool_calls (choice_message choice) = Some (served_tools ++ tool :: remaining) →
  Forall2 (served callbacks) served_tools calls →
  getCallbackByFunctionName callbacks (tool_function_name tool) = Ok callback →
  JSON_parse (tool_function_arguments tool) = Ok params →
  callback params = Throw error →
  functionCalling callbacks input (Ok llmResponse :: rest)
  = (Throw (BadRequestException ("Function calling error: " +:+ message error)),
     st_trace st ++ callbackEvents served_tools calls ++
     [CallbackInvoked (tool_function_name tool) params]).
Proof.
  intros Hreach Hchoice Hreason Htools Hserved Hcb Hparse Hfail.
  pose proof (reached_tool_round callbacks input llmResponse rest n st choice others _
                Hreach Hchoice Hreason Htools) as Hround.
  rewrite (runToolCalls_app_served _ _ _ _ _ Hserved) in Hround.
  simpl in Hround. rewrite Hcb, Hparse, Hfail in Hround.
  unfold functionCalling. rewrite Hround. simpl. by rewrite <- app_assoc.
Qed.

(** X6. The shape of what [functionCalling] does itself in a run: its own
    completion calls and the callbacks it invokes (what a callback does
    inside, such as the search of the registered searchProducts closure, is
    not part of the trace).  The first event is the completion call on the
    system prompt and the input, with the schema.  After it the function
    only invokes callbacks of registered tools and issues completion calls
    that carry the schema.  It issues a completion call without tools at
    most once, as its last step, on the two-message finalization context;
    and it returns an answer only after that call. *)
Theorem run_trace_shape input script :
  ∃ body final,
    snd (functionCalling callbacks input script)
    = CompletionCall (initialMessages input callbacks) (Some (functions callbacks))
      :: body ++ final
    ∧ Forall (loopEvent callbacks) body
    ∧ (final = [] ∨ ∃ result, final = [CompletionCall (finalMessage input result) None])
    ∧ (∀ answer, fst (functionCalling callbacks input script) = Ok answer →
                 final ≠ []).
Proof.
  unfold functionCalling, functionCallingBody, create.
  destruct (nextOutcome script) as [[llmResponse|error] rest] eqn:Hnext; simpl.
  - set (start := [CompletionCall (initialMessages input callbacks)
                                  (Some (functions callbacks))]).
    destruct (toolLoop_shape rest llmResponse (initialMessages input callbacks) start)
      as (body & Hbody & Hloop).
    destruct (finalize_shape input
                (toolLoop callbacks rest llmResponse
                   (initialMessages input callbacks) start))
      as (final & Hfinal & Hlast & Hanswer).
    exists body, final.
    destruct (finalize input _) as [outcome trace]. simpl in *.
    rewrite Hfinal, Hbody. split; [subst start; reflexivity|].
    split; [done|]. split; [done|].
    intros answer Hok. apply (Hanswer answer). by destruct outcome.
  - exists [], []. split; [done|]. split; [constructor|]. split; [by left|done].
Qed.




(** X8. How finalization can end.  When the finalization completion has no
    choice at all the run succeeds with [undefined] as its answer; when its
    top choice has [null] content the run fails on reading [trim]; when the
    provider fails the run fails with the provider's message. *)
Theorem finalization_outcomes input llmResponse rest n st choice others :
  afterRounds callbacks n (startState callbacks input llmResponse rest) = Some st →
  choices (st_response st) = choice :: others →
  finish_reason choice ≠ "tool_calls" →
  let outcome := fst (functionCalling callbacks input (Ok llmResponse :: rest)) in
  (∀ finalResponse later,
      st_script st = Ok finalResponse :: later →
      choices finalResponse = [] →
      outcome = Ok None)
  ∧ (∀ finalResponse later finalChoice finalOthers,
        st_script st = Ok finalResponse :: later →
        choices finalResponse = finalChoice :: finalOthers →
        content (choice_message finalChoice) = None →
        outcome = Throw (BadRequestException
                           ("Function calling error: " +:+ readOfNull "trim")))
  ∧ (∀ error later,
        st_script st = Throw error :: later →
        outcome = Throw (BadRequestException
                           ("Function calling error: " +:+ message error))).
Proof.
  intros Hreach Hchoice Hreason outcome. subst outcome.
  unfold functionCalling.
  rewrite (functionCalling_reached _ _ _ _ _ _ Hreach).
  unfold runLoop. rewrite toolLoop_unfold.
  unfold topChoice. rewrite Hchoice.
  apply String.eqb_neq in Hreason. rewrite Hreason. simpl.
  unfold topChoice. rewrite Hchoice. unfold create.
  split; [|split].
  - intros finalResponse later Hscript Hnone. rewrite Hscript. simpl.
    unfold finalAnswer. by rewrite Hnone.
  - intros finalResponse later finalChoice finalOthers Hscript Hfinal Hnull.
    rewrite Hscript. simpl. unfold finalAnswer. by rewrite Hfinal, Hnull.
  - intros error later Hscript. by rewrite Hscript.
Qed.

(** X9. When every request of a round has been served and the provider then
    fails on the next completion call, the run fails with
    "Function calling error: " followed by the provider's message: the
    callbacks have run, the call was issued, and no answer is returned. *)
Theorem provider_failure_after_tools input llmResponse rest n st choice others
  tools calls error later :
  afterRounds callbacks n (startState callbacks input llmResponse rest) = Some st →
  choices (st_response st) = choice :: others →
  finish_reason choice = "tool_calls" →
  tool_calls (choice_message choice) = Some tools →
  Forall2 (served callbacks) tools calls →
  st_script st = Throw error :: later →
  functionCalling callbacks input (Ok llmResponse :: rest)
  = (Throw (BadRequestException ("Function calling error: " +:+ message error)),
     st_trace st ++ callbackEvents tools calls ++
     [CompletionCall
        (st_messages st ++ [AssistantReply (choice_message choice)] ++
         toolMessages tools calls ++ [SystemMessage (nudge callbacks)])
        (Some (functions callbacks))]).
Proof.
  intros Hreach Hchoice Hreason Htools Hserved Hscript.
  unfold functionCalling.
  rewrite (functionCalling_reached _ _ _ _ _ _ Hreach).
  unfold runLoop. rewrite toolLoop_unfold.
  unfold topChoice. rewrite Hchoice, Hreason. simpl.
  unfold toolRound. rewrite Htools.
  rewrite (runToolCalls_served callbacks _ _ _ _ Hserved).
  rewrite Hscript. simpl. by rewrite <- !app_assoc.
Qed.

End OrchestratorMore.

Lemma unparseable_arguments_fail_witness :
  @functionCalling sampleRuntime sampleCallbacks "Find me a phone"
    [Ok (requestTools [convertCall; garbledCall; searchCall]);
     Ok (plainAnswer "never asked for")]
  = (Throw (BadRequestException
              "Function calling error: Unexpected token in JSON: name: phone"),
     [CompletionCall (initialMessages "Find me a phone" sampleCallbacks)
                     (Some (functions sampleCallbacks));
      CallbackInvoked "convertCurrencies" (JArray [JNumber 100])]).
Proof.
  apply (@unparseable_arguments_fail sampleRuntime sampleCallbacks "Find me a phone"
           (requestTools [convertCall; garbledCall; searchCall])
           [Ok (plainAnswer "never asked for")]
           0%nat _ _ [] [convertCall] garbledCall [searchCall]
           [(JArray [JNumber 100], "rate:[100]")]
           (echo "products:")
           (SyntaxError "Unexpected token in JSON: name: phone")
           eq_refl eq_refl eq_refl eq_refl).
  - repeat constructor. exists (echo "rate:"). repeat split; reflexivity.
  - reflexivity.
  - reflexivity.
Defined.

Lemma callback_failure_fails_witness :
  @functionCalling sampleRuntime failingCallbacks "Convert 100 COP to USD"
    [Ok (requestTools [convertCall; searchCall]);
     Ok (plainAnswer "never asked for")]
  = (Throw (BadRequestException
              "Function calling error: CurrencyService: Unable to fetch the currency list. Please check the API endpoint: https://openexchangerates.org/api"),
     [CompletionCall (initialMessages "Convert 100 COP to USD" failingCallbacks)
                     (Some (functions failingCallbacks));
      CallbackInvoked "convertCurrencies" (JArray [JNumber 100])]).
Proof.
  apply (@callback_failure_fails sampleRuntime failingCallbacks
           "Convert 100 COP to USD"
           (requestTools [convertCall; searchCall])
           [Ok (plainAnswer "never asked for")]
           0%nat _ _ [] [] convertCall [searchCall] []
           rateLimited (JArray [JNumber 100])
           (BadRequestException
              "CurrencyService: Unable to fetch the currency list. Please check the API endpoint: https://openexchangerates.org/api")
           eq_refl eq_refl eq_refl eq_refl).
  - constructor.
  - reflexivity.
  - reflexivity.
  - reflexivity.
Defined.


Lemma finalization_outcomes_witness :
  fst (@functionCalling sampleRuntime sampleCallbacks "hello"
         [Ok (plainAnswer "Hi"); Ok {| choices := [] |}])
  = Ok None.
Proof.
  destruct (@finalization_outcomes sampleRuntime sampleCallbacks "hello"
              (plainAnswer "Hi") [Ok {| choices := [] |}] 0%nat _ _ []
              eq_refl eq_refl) as (Hundefined & _ & _).
  - discriminate.
  - exact (Hundefined {| choices := [] |} [] eq_refl eq_refl).
Defined.

Lemma provider_failure_after_tools_witness :
  @functionCalling sampleRuntime sampleCallbacks "Convert 100 COP to USD"
    [Ok (requestTools [convertCall]);
     Throw (APIConnectionError "Connection error.")]
  = (Throw (BadRequestException "Function calling error: Connection error."),
     [CompletionCall (initialMessages "Convert 100 COP to USD" sampleCallbacks)
                     (Some (functions sampleCallbacks));
      CallbackInvoked "convertCurrencies" (JArray [JNumber 100]);
      CompletionCall
        (initialMessages "Convert 100 COP to USD" sampleCallbacks ++
         [AssistantReply {| content := None; tool_calls := Some [convertCall] |};
          ToolMessage "rate:[100]" "call_1";
          SystemMessage (nudge sampleCallbacks)])
        (Some (functions sampleCallbacks))]).
Proof.
  apply (@provider_failure_after_tools sampleRuntime sampleCallbacks
           "Convert 100 COP to USD"
           (requestTools [convertCall])
           [Throw (APIConnectionError "Connection error.")]
           0%nat _ _ [] [convertCall]
           [(JArray [JNumber 100], "rate:[100]")]
           (APIConnectionError "Connection error.") []
           eq_refl eq_refl eq_refl eq_refl).
  - repeat constructor. exists (echo "rate:"). repeat split; reflexivity.
  - reflexivity.
Defined.

(** * [ChatbotService] *)

(** X10. A chatbot request passes the answer of [functionCalling] through
    unchanged ([undefined] included) and issues no event of its own; every
    failure reaches the caller as a [BadRequestException] whose message is
    "Chatbot error: Function calling error: " followed by the message of
    the error that ended the run. *)
Theorem chatbot_error_nesting `{JsRuntime}
  (convertCurrencies searchProducts : JSON -> Result string)
  (req : ChatbotReq) (script : Script) :
  let registry := chatbotFunctions convertCurrencies searchProducts in
  let run := chatbot convertCurrencies searchProducts req script in
  snd run = snd (functionCalling registry (input req) script)
  ∧ (∀ res, fst run = Ok res →
            fst (functionCalling registry (input req) script) = Ok (response res))
  ∧ (∀ error,
        fst run = Throw error →
        ∃ underlying,
          fst (functionCallingBody registry (input req) script) = Throw underlying
          ∧ error = BadRequestException
                      ("Chatbot error: " +:+ "Function calling error: " +:+
                       message underlying)).
Proof.
  intros registry run. subst run. unfold chatbot. fold registry.
  unfold functionCalling.
  destruct (functionCallingBody registry (input req) script)
    as [[answer|underlying] trace]; simpl.
  - split; [done|]. split; [|done]. by intros res [= <-].
  - split; [done|]. split; [done|]. intros error [= <-]. by exists underlying.
Qed.

(** X18. A chatbot request in which the model's first response asks first
    for a tool that is neither convertCurrencies nor searchProducts fails
    with "Chatbot error: Function calling error: Function <name> not
    found"; neither callback is invoked and no second completion call is
    issued. *)
Theorem chatbot_unknown_tool `{JsRuntime}
  (convertCurrencies searchProducts : JSON -> Result string)
  (req : ChatbotReq) llmResponse rest choice others tool remaining :
  choices llmResponse = choice :: others →
  finish_reason choice = "tool_calls" →
  tool_calls (choice_message choice) = Some (tool :: remaining) →
  tool_function_name tool ≠ "convertCurrencies" →
  tool_function_name tool ≠ "searchProducts" →
  let registry := chatbotFunctions convertCurrencies searchProducts in
  chatbot convertCurrencies searchProducts req (Ok llmResponse :: rest)
  = (Throw (BadRequestException
              ("Chatbot error: " +:+ "Function calling error: " +:+
               "Function " +:+ tool_function_name tool +:+ " not found")),
     [CompletionCall (initialMessages (input req) registry)
                     (Some (functions registry))]).
Proof.
  intros Hchoice Hreason Htools Hconvert Hsearch registry.
  pose proof (reached_tool_round registry (input req) llmResponse rest 0
                (startState registry (input req) llmResponse rest)
                choice others (tool :: remaining)
                eq_refl Hchoice Hreason Htools) as Hround.
  assert (Hunknown : ∀ fn, fn ∈ registry → fn_name fn ≠ tool_function_name tool).
  { intros fn Hin. subst registry. unfold chatbotFunctions in Hin.
    repeat (apply elem_of_cons in Hin as [-> | Hin]); simpl; try congruence.
    by apply elem_of_nil in Hin. }
  assert (Hnone : Forall2 (served registry) [] []) by constructor.
  pose proof (runToolCalls_unknown registry [] [] tool remaining
                (st_messages (startState registry (input req) llmResponse rest) ++
                 [AssistantReply (choice_message choice)])
                (st_trace (startState registry (input req) llmResponse rest))
                Hnone Hunknown) as Hfail.
  change ([] ++ tool :: remaining) with (tool :: remaining) in Hfail.
  rewrite Hfail in Hround.
  unfold chatbot. fold registry. unfold functionCalling. rewrite Hround.
  simpl. reflexivity.
Qed.

Lemma chatbot_unknown_tool_witness :
  fst (@chatbot sampleRuntime (echo "rate:") (echo "products:")
         {| input := "Cancel my order" |}
         [Ok (requestTools [unknownCall; convertCall])])
  = Throw (BadRequestException
             "Chatbot error: Function calling error: Function cancelOrder not found").
Proof.
  rewrite (@chatbot_unknown_tool sampleRuntime (echo "rate:") (echo "products:")
             {| input := "Cancel my order" |}
             (requestTools [unknownCall; convertCall]) [] _ [] unknownCall
             [convertCall] eq_refl eq_refl eq_refl).
  - reflexivity.
  - discriminate.
  - discriminate.
Defined.

(** * Further properties of the search flow *)

Section SearchMore.

Context `{JsRuntime}.

Lemma searchItems_no_answer searchTerm items constraints script :
  (∀ xs, ¬ integerArrayResponse script xs) →
  fst (searchItems searchTerm items constraints script) = [].
Proof.
  intros Hnone. unfold searchItems, searchItemsBody, create.
  destruct script as [|[llmResponse|error] rest]; simpl; [done| |done].
  unfold topChoice. destruct (choices llmResponse) as [|choice others] eqn:Hchoice;
    [done|].
  rewrite validateResponseFormat_invalid; [done|].
  intros xs Hparse. apply not_true_is_false. intros Hints.
  apply (Hnone xs). by exists llmResponse, rest, choice, others.
Qed.

(** X11. [validateResponseFormat] succeeds exactly on a text that parses as
    an array of integers, with the integers in the order of the array; and
    whatever made it fail, the exception is the same
    [BadRequestException] quoting the text (the message of the inner error
    is dropped). *)
Theorem validateResponseFormat_outcome responseMessage :
  (∀ indices,
      validateResponseFormat responseMessage = Ok indices
      ↔ ∃ xs, JSON_parse (render responseMessage) = Ok (JArray xs)
              ∧ forallb Number_isInteger xs = true
              ∧ indices = map integerValue xs)
  ∧ (∀ error,
        validateResponseFormat responseMessage = Throw error →
        error = BadRequestException
                  ("Invalid response format from search: " +:+ render responseMessage)).
Proof.
  unfold validateResponseFormat. split.
  - intros indices. split.
    + destruct (JSON_parse (render responseMessage)) as [[| | | |xs|]|error];
        try done.
      destruct (forallb Number_isInteger xs) eqn:Hints; [|done].
      simpl. intros [= <-]. by exists xs.
    + intros (xs & -> & -> & ->). done.
  - intros error.
    destruct (JSON_parse (render responseMessage)) as [[| | | |xs|]|error'];
      simpl; try (by intros [= <-]).
    destruct (forallb Number_isInteger xs); simpl; [done|]. by intros [= <-].
Qed.

Lemma searchItems_trace searchTerm items constraints script :
  snd (searchItems searchTerm items constraints script)
  = [CompletionCall (searchMessages searchTerm items constraints) None].
Proof.
  unfold searchItems, searchItemsBody, create.
  destruct script as [|[llmResponse|error] rest]; simpl; [done| |done].
  by destruct (topChoice llmResponse "message").
Qed.

(** X12. The numbering shown to the model and the decoding of its answer
    agree.  The one completion call of the search that [searchByName] asks
    for sends, after the instruction, one label per product, the label of
    the product at position k being k + 1 followed by its title; and when
    the search returns that number alone, [searchByName] returns the array
    holding that very product. *)
Theorem enumeration_matches_decoding (products : list Product) name script k product :
  products !! k = Some product →
  (∃ request labels,
      snd (searchItems name (map displayTitle products) "Must select 2 items." script)
      = [CompletionCall
           [UserMessage request;
            SystemMessage
              ("You are a helpful assistant. Based on the user's query, return a JSON array containing the indices without any decoration of the relevant items from the following list:"
               +:+ newline +:+ join newline labels)]
           None]
      ∧ length labels = length products
      ∧ labels !! k = Some (pretty (S k) +:+ ". " +:+ displayTitle product))
  ∧ (fst (searchItems name (map displayTitle products) "Must select 2 items." script)
     = [Z.of_nat (S k)] →
     searchByName products name script
     = Ok ("[" +:+ JSON_stringify (productJSON product) +:+ "]")).
Proof.
  intros Hlook. split.
  - rewrite searchItems_trace. unfold searchMessages, enumeratedItems.
    eexists. exists (imap (fun index item => pretty (index + 1)%nat +:+ ". " +:+ item)
                          (map displayTitle products)).
    split; [reflexivity|]. split; [by rewrite length_imap, length_map|].
    rewrite list_lookup_imap, list_lookup_fmap, Hlook. simpl.
    by rewrite Nat.add_1_r.
  - intros Hindex. unfold searchByName. cbv zeta. rewrite Hindex.
    cbn [length Nat.eqb map try_catch]. unfold arrayGet.
    destruct (Z.ltb_spec (Z.of_nat (S k) - 1) 0) as [Hneg|_]; [lia|].
    replace (Z.to_nat (Z.of_nat (S k) - 1)) with k by lia.
    by rewrite Hlook.
Qed.

Lemma arrayGet_position (products : list Product) k :
  arrayGet products (Z.of_nat k + 1 - 1) = products !! k.
Proof.
  unfold arrayGet.
  destruct (Z.ltb_spec (Z.of_nat k + 1 - 1) 0) as [Hneg|_]; [lia|].
  by replace (Z.to_nat (Z.of_nat k + 1 - 1)) with k by lia.
Qed.

(** X13. When the model answers with the numbers of listed products,
    [searchByName] returns the JSON array of exactly those products, in the
    order of the answer and with its repetitions; and, the engine never
    writing an object as the text null, no element of the array is null. *)
Theorem searchByName_returns_listed_products products name script positions :
  (∀ fields, JSON_stringify (JObject fields) ≠ "null") →
  positions ≠ [] →
  Forall (fun k => (k < length products)%nat) positions →
  fst (searchItems name (map displayTitle products) "Must select 2 items." script)
  = map (fun k => Z.of_nat k + 1) positions →
  ∃ elements,
    searchByName products name script = Ok ("[" +:+ join "," elements +:+ "]")
    ∧ Forall2
        (fun k element =>
           element ≠ "null"
           ∧ ∃ product, products !! k = Some product
                        ∧ element = JSON_stringify (productJSON product))
        positions elements.
Proof.
  intros Hobject Hsome Hrange Hindices.
  assert (Hfound : ∃ found,
             Forall2 (fun k product => products !! k = Some product) positions found
             ∧ map (fun index => arrayGet products (index - 1))
                   (map (fun k => Z.of_nat k + 1) positions)
               = map Some found).
  { clear Hsome Hindices. induction Hrange as [|k positions Hk _ IH].
    - exists []. split; [constructor|done].
    - destruct IH as (found & Hall & Hmap).
      destruct (lookup_lt_is_Some_2 products k Hk) as [product Hlook].
      exists (product :: found). split; [by constructor|].
      simpl. by rewrite arrayGet_position, Hlook, Hmap. }
  destruct Hfound as (found & Hall & Hmap).
  exists (map (fun product => JSON_stringify (productJSON product)) found). split.
  - unfold searchByName. cbv zeta. rewrite Hindices, Hmap, length_map.
    destruct positions as [|k positions]; [done|].
    cbn [length Nat.eqb try_catch]. unfold stringifyProducts. by rewrite map_map.
  - clear -Hall Hobject. induction Hall as [|k product positions found Hlook _ IH];
      simpl; constructor; [|exact IH].
    split; [apply Hobject|]. by exists product.
Qed.

(** X14. A search that the provider could not answer, or answered with
    anything but an array of integers, is reported by [searchByName] as if
    the catalog held no match: "Unable to search products: No products
    found for: " followed by the name. *)
Theorem searchByName_failure_reported_as_not_found products name script :
  (∀ xs, ¬ integerArrayResponse script xs) →
  searchByName products name script
  = Throw (BadRequestException
             ("Unable to search products: " +:+ "No products found for: " +:+ name)).
Proof.
  intros Hnone. unfold searchByName.
  by rewrite (searchItems_no_answer _ _ _ _ Hnone).
Qed.

Lemma empty_catalog_elements (indices : list Z) :
  map stringifyElement (map (fun index => arrayGet [] (index - 1)) indices)
  = replicate (length indices) "null".
Proof.
  induction indices as [|index indices IH]; [done|].
  cbn [map length replicate]. rewrite IH. f_equal.
  unfold arrayGet. by destruct (index - 1 <? 0).
Qed.

(** X15. Over an empty catalog (as it is until the CSV file has been read)
    every index the model returns is out of range: the result is an array
    with one null per index. *)
Theorem searchByName_empty_catalog name script indices :
  fst (searchItems name [] "Must select 2 items." script) = indices →
  indices ≠ [] →
  searchByName [] name script
  = Ok ("[" +:+ join "," (replicate (length indices) "null") +:+ "]").
Proof.
  intros Hindices Hsome. unfold searchByName. cbv zeta.
  change (map displayTitle []) with (@nil string). rewrite Hindices.
  destruct indices as [|index indices]; [done|].
  cbn [length Nat.eqb try_catch]. unfold stringifyProducts.
  by rewrite empty_catalog_elements.
Qed.

End SearchMore.

Lemma enumeration_matches_decoding_witness :
  (∃ request labels,
      snd (@searchItems sampleRuntime "phone" (map displayTitle catalog)
             "Must select 2 items." [Ok (plainAnswer "[2]")])
      = [CompletionCall
           [UserMessage request;
            SystemMessage
              ("You are a helpful assistant. Based on the user's query, return a JSON array containing the indices without any decoration of the relevant items from the following list:"
               +:+ newline +:+ join newline labels)]
           None]
      ∧ length labels = length catalog
      ∧ labels !! 1%nat = Some "2. iPhone 13")
  ∧ @searchByName sampleRuntime catalog "phone" [Ok (plainAnswer "[2]")]
    = Ok ("[" +:+ sampleStringify (productJSON iphone13) +:+ "]").
Proof.
  destruct (@enumeration_matches_decoding sampleRuntime catalog "phone"
              [Ok (plainAnswer "[2]")] 1%nat iphone13 eq_refl)
    as [Hlabels Hdecode].
  split; [exact Hlabels | apply Hdecode; reflexivity].
Defined.

Lemma searchByName_returns_listed_products_witness :
  ∃ elements,
    @searchByName sampleRuntime catalog "phone" [Ok (plainAnswer "[2, 1]")]
    = Ok ("[" +:+ join "," elements +:+ "]")
    ∧ Forall2
        (fun k element =>
           element ≠ "null"
           ∧ ∃ product, catalog !! k = Some product
                        ∧ element = sampleStringify (productJSON product))
        [1%nat; 0%nat] elements.
Proof.
  apply (@searchByName_returns_listed_products sampleRuntime catalog "phone"
           [Ok (plainAnswer "[2, 1]")] [1%nat; 0%nat]).
  - intros fields. discriminate.
  - discriminate.
  - repeat constructor.
  - reflexivity.
Defined.

Lemma searchByName_failure_reported_as_not_found_witness :
  @searchByName sampleRuntime catalog "phone" []
  = Throw (BadRequestException
             "Unable to search products: No products found for: phone").
Proof.
  apply (@searchByName_failure_reported_as_not_found sampleRuntime catalog "phone" []).
  intros xs (llmResponse & rest & choice & others & Hscript & _). discriminate.
Defined.

Lemma searchByName_empty_catalog_witness :
  @searchByName sampleRuntime [] "phone" [Ok (plainAnswer "[1, 2]")]
  = Ok "[null,null]".
Proof.
  apply (@searchByName_empty_catalog sampleRuntime "phone"
           [Ok (plainAnswer "[1, 2]")] [1; 2]).
  - reflexivity.
  - discriminate.
Defined.

(** * Further properties of the currency conversion *)

Section CurrencyMore.

Context `{JsRuntime}.
Implicit Types (api : ExchangeApi) (amount : float) (from to : string).

Lemma noCurrency_false_inv currencies code :
  noCurrency currencies code = false →
  (∃ name, currencies !! code = Some name ∧ name ≠ EmptyString)
  ∨ (currencies !! code = None ∧ code ∈ objectPrototypeMembers).
Proof.
  unfold noCurrency, getMember. destruct (currencies !! code) as [name|].
  - intros Hname. left. exists name. split; [done|]. by apply String.eqb_neq.
  - case_bool_decide; [|done]. intros _. by right.
Qed.

Lemma noRate_false_inv table code :
  noRate table code = false →
  (∃ rate, table !! code = Some rate ∧ falsyNumber rate = false)
  ∨ (table !! code = None ∧ code ∈ objectPrototypeMembers).
Proof.
  unfold noRate, getMember. destruct (table !! code) as [rate|].
  - intros Hrate. left. by exists rate.
  - case_bool_decide; [|done]. intros _. by right.
Qed.

(** What [convert] has checked when it returns. *)
Lemma convert_ok_checked api amount from to value :
  convert api amount from to = Ok value →
  ∃ response currencies ratesResponse ratesData table,
    fetchCurrencies api = Ok response ∧ ok response = true
    ∧ json response = Ok (SlotObject currencies)
    ∧ fetchLatest api = Ok ratesResponse ∧ ok ratesResponse = true
    ∧ json ratesResponse = Ok (SlotObject ratesData)
    ∧ rates ratesData = SlotObject table
    ∧ noCurrency currencies from = false ∧ noCurrency currencies to = false
    ∧ noRate table from = false ∧ noRate table to = false
    ∧ value = PrimFloat.mul (PrimFloat.div amount (rateOf table from)) (rateOf table to).
Proof.
  unfold convert.
  destruct (fetchCurrencies api) as [response|error]; [|done].
  destruct (ok response) eqn:Hok; simpl; [|done].
  destruct (json response) as [[| |currencies]|error] eqn:Hjson; try done.
  simpl.
  destruct (noCurrency currencies from) eqn:HcFrom; simpl; [done|].
  destruct (noCurrency currencies to) eqn:HcTo; simpl; [done|].
  destruct (fetchLatest api) as [ratesResponse|error]; [|done].
  destruct (ok ratesResponse) eqn:Hok'; simpl; [|done].
  destruct (json ratesResponse) as [[| |ratesData]|error] eqn:Hjson'; try done.
  simpl.
  destruct (rates ratesData) as [| |table] eqn:Hrates; try done.
  simpl.
  destruct (noRate table from) eqn:HrFrom; simpl; [done|].
  destruct (noRate table to) eqn:HrTo; simpl; [done|].
  intros [= <-].
  exists response, currencies, ratesResponse, ratesData, table.
  repeat split; done.
Qed.

(** X16. A value is returned by [convert] only when both fetches were ok
    and their bodies were objects, and each code was accepted in both
    tables: it has a non-empty name, respectively a rate that is neither
    zero nor NaN, of its own, or it has no entry and is one of the names
    every object inherits from [Object.prototype].  When neither code is
    such a name, the value is the cross-rate
    (amount / rates[from]) * rates[to] of the two own rates. *)
Theorem convert_ok_inv api amount from to value :
  convert api amount from to = Ok value →
  ∃ response currencies ratesResponse ratesData table,
    fetchCurrencies api = Ok response ∧ ok response = true
    ∧ json response = Ok (SlotObject currencies)
    ∧ fetchLatest api = Ok ratesResponse ∧ ok ratesResponse = true
    ∧ json ratesResponse = Ok (SlotObject ratesData)
    ∧ rates ratesData = SlotObject table
    ∧ (∀ code, code = from ∨ code = to →
         ((∃ name, currencies !! code = Some name ∧ name ≠ EmptyString)
          ∨ (currencies !! code = None ∧ code ∈ objectPrototypeMembers))
         ∧ ((∃ rate, table !! code = Some rate ∧ falsyNumber rate = false)
            ∨ (table !! code = None ∧ code ∈ objectPrototypeMembers)))
    ∧ (from ∉ objectPrototypeMembers →
       to ∉ objectPrototypeMembers →
       ∃ nameFrom nameTo rateFrom rateTo,
         currencies !! from = Some nameFrom ∧ nameFrom ≠ EmptyString
         ∧ currencies !! to = Some nameTo ∧ nameTo ≠ EmptyString
         ∧ table !! from = Some rateFrom ∧ falsyNumber rateFrom = false
         ∧ table !! to = Some rateTo ∧ falsyNumber rateTo = false
         ∧ value = PrimFloat.mul (PrimFloat.div amount rateFrom) rateTo).
Proof.
  intros Hvalue.
  destruct (convert_ok_checked _ _ _ _ _ Hvalue)
    as (response & currencies & ratesResponse & ratesData & table
        & Hcur & Hok & Hjson & Hlatest & Hok' & Hjson' & Hrates
        & HcFrom & HcTo & HrFrom & HrTo & ->).
  exists response, currencies, ratesResponse, ratesData, table.
  do 7 (split; [done|]).
  apply noCurrency_false_inv in HcFrom, HcTo.
  pose proof (noRate_false_inv _ _ HrFrom) as HrFrom'.
  pose proof (noRate_false_inv _ _ HrTo) as HrTo'.
  split.
  - intros code [-> | ->]; by split.
  - intros HownFrom HownTo.
    destruct HcFrom as [(nameFrom & HnameFrom & HneFrom) | [_ Hin]]; [|done].
    destruct HcTo as [(nameTo & HnameTo & HneTo) | [_ Hin]]; [|done].
    destruct HrFrom' as [(rateFrom & HrateFrom & HokFrom) | [_ Hin]]; [|done].
    destruct HrTo' as [(rateTo & HrateTo & HokTo) | [_ Hin]]; [|done].
    exists nameFrom, nameTo, rateFrom, rateTo.
    unfold rateOf, getMember. rewrite HrateFrom, HrateTo. repeat split; done.
Qed.


End CurrencyMore.

Lemma convert_ok_inv_witness :
  ∃ rateFrom rateTo,
    usualRates !! "COP" = Some rateFrom
    ∧ usualRates !! "EUR" = Some rateTo
    ∧ 1%float = PrimFloat.mul (PrimFloat.div 8000 rateFrom) rateTo.
Proof.
  destruct (@convert_ok_inv sampleRuntime (exchangeApi usualRates) 8000 "COP" "EUR"
              1%float eq_refl)
    as (response & currencies & ratesResponse & ratesData & table
        & _ & _ & _ & Hlatest & _ & Hjson & Hrates & _ & Hcross).
  injection Hlatest as <-. injection Hjson as <-. injection Hrates as <-.
  destruct Hcross as (nameFrom & nameTo & rateFrom & rateTo
                      & _ & _ & _ & _ & HrateFrom & _ & HrateTo & _ & Hvalue).
  - apply (bool_decide_unpack _). vm_compute. exact I.
  - apply (bool_decide_unpack _). vm_compute. exact I.
  - exists rateFrom, rateTo. repeat split; done.
Defined.

